(** * graphical-gdb: the GDB process session, the console loop and the stack panel

    A shallow embedding of [src/gui.cpp]:
    - [string_ends_with], [string_contains] and the [GDB] class
      ([execute], [read_until_prompt], [is_alive], [get_execution_output],
      [is_running_program]);
    - [update_console_and_gui] and the loop of [open_console];
    - the stack image kept by [GDBStackPanel::SetStackFrame].

    The child process, the terminal and the GUI thread are the environment
    of the program.  Their answers are data of the model: every primitive
    that asks the environment something (an [exited()] poll, a [readsome],
    a [readline], a [GetTopWindow]) takes the next answer from a script
    carried in the state, so a statement quantified over all states holds
    for every behaviour of the environment. *)

From Stdlib Require Import ZArith String Ascii List Lia Bool Arith.
From Stdlib Require DecimalString HexadecimalString DecimalZ HexadecimalN DecimalPos.
From stdpp Require Import base list.
Import ListNotations.

Local Open Scope string_scope.

(** ** Strings ([std::string]) *)

Module Str.

(** [std::endl] inserts a newline (and flushes). *)
Definition endl : string := String (ascii_of_nat 10) EmptyString.

(** [std::equal(first1, last1, first2)] on two ranges, given as the lists
    the iterators run over.  The second range must be at least as long as
    the first one (the callers check it); the model answers [false] where
    C++ would read past its end. *)
Fixpoint equal (r1 r2 : list ascii) : bool :=
  match r1 with
  | [] => true
  | a :: r1' =>
      match r2 with
      | [] => false
      | b :: r2' => Ascii.eqb a b && equal r1' r2'
      end
  end.

(** The range [s.rbegin(), s.rend()). *)
Definition rrange (s : string) : list ascii := rev (list_ascii_of_string s).

(** [s.erase(index, count)]: removes [min(count, size - index)] characters
    from position [index] on.  ([std::out_of_range] for [index > size] is
    not modelled: the only call site has [index <= size].) *)
Definition erase (s : string) (index count : nat) : string :=
  let n := Nat.min count (String.length s - index) in
  substring 0 index s ++ substring (index + n) (String.length s - (index + n)) s.

(** [s.find(value)]: the first position at which [value] occurs in [s],
    [None] for [npos]. *)
Fixpoint find_from (pos : nat) (s value : string) : option nat :=
  if String.prefix value s then Some pos
  else match s with
       | EmptyString => None
       | String _ s' => find_from (S pos) s' value
       end.

Definition find (s value : string) : option nat := find_from 0 s value.

End Str.

(** Helper function for determining if a string ends with a certain value. *)
Definition string_ends_with (str ending : string) : bool :=
  if (String.length str <? String.length ending)%nat then false
  else Str.equal (Str.rrange ending) (Str.rrange str).

(** Helper function for determining if a string contains a value. *)
Definition string_contains (str value : string) : bool :=
  match Str.find str value with
  | Some _ => true
  | None => false
  end.

(** ** Constants *)

Definition GDB_PROMPT : string := "(gdb) ".
Definition GDB_QUIT : string := "quit".
Definition GDB_PROGRAM_STATUS : string := "info program".
Definition GDB_STATUS_IDLE : string := "GDB is idle.".
Definition GDB_STATUS_RUNNING : string := "GDB is currently running a program.".

(** [strlen] of a string without an embedded NUL. *)
Definition strlen (s : string) : nat := String.length s.

(** ** The child process ([redi::pstream]) *)

(** What the program can observe of the child:
    - [sent]: every byte inserted into the stream towards the child's
      standard input, in order;
    - [exit_reports]: the answers of the coming polls
      [(out().rdbuf()->exited(), err().rdbuf()->exited())];
      [exit_settled] is the answer of every poll after those;
    - [out_pending], [err_pending]: the results of the coming
      [out().readsome] and [err().readsome] calls, an empty string for a
      call that finds nothing available; once the list is used up nothing
      is available any more.
    ([pstream.hpp] itself is not among the sources at hand: the answers of
    its calls are inputs of the model.) *)
Record pstream := mk_pstream {
  sent : string;
  exit_reports : list (bool * bool);
  exit_settled : bool * bool;
  out_pending : list string;
  err_pending : list string
}.

Definition set_sent (s : string) (p : pstream) : pstream :=
  mk_pstream s (exit_reports p) (exit_settled p) (out_pending p) (err_pending p).
Definition set_exit_reports (l : list (bool * bool)) (p : pstream) : pstream :=
  mk_pstream (sent p) l (exit_settled p) (out_pending p) (err_pending p).
Definition set_out_pending (l : list string) (p : pstream) : pstream :=
  mk_pstream (sent p) (exit_reports p) (exit_settled p) l (err_pending p).
Definition set_err_pending (l : list string) (p : pstream) : pstream :=
  mk_pstream (sent p) (exit_reports p) (exit_settled p) (out_pending p) l.

(** [process << line << std::endl] *)
Definition insert_line (line : string) (p : pstream) : pstream :=
  set_sent (sent p ++ line ++ Str.endl) p.

(** One poll of both [exited()] queries. *)
Definition exited_poll (p : pstream) : (bool * bool) * pstream :=
  match exit_reports p with
  | [] => (exit_settled p, p)
  | r :: rs => (r, set_exit_reports rs p)
  end.

(** The state a poll leaves behind. *)
Definition polled (p : pstream) : pstream := snd (exited_poll p).

(** ** Class [GDB] *)

Record GDB := mk_GDB {
  process : pstream;
  running_program_flag : bool;
  running_program : bool
}.

Definition set_process (p : pstream) (g : GDB) : GDB :=
  mk_GDB p (running_program_flag g) (running_program g).
Definition set_running_program_flag (b : bool) (g : GDB) : GDB :=
  mk_GDB (process g) b (running_program g).
Definition set_running_program (b : bool) (g : GDB) : GDB :=
  mk_GDB (process g) (running_program_flag g) b.

(** Class constructor opens the process: [process("gdb", args, GDB_PMODE)],
    both flags [false].  [child] is the behaviour of the spawned process. *)
Definition GDB_new (args : list string) (child : pstream) : GDB :=
  mk_GDB (set_sent "" child) false false.

(** Returns true if the GDB process is still alive. *)
Definition is_alive (g : GDB) : bool * GDB :=
  let '((out_exited, err_exited), p) := exited_poll (process g) in
  let exited := out_exited || err_exited in
  (negb exited, set_process p g).

(** Execute the given command by passing it to the process.  [line] is a
    [const char *]: [None] is the null pointer. *)
Definition execute (line : option string) (g : GDB) : GDB :=
  let (alive, g1) := is_alive g in
  match line with
  | Some l =>
      if alive
      then set_running_program_flag true (set_process (insert_line l (process g1)) g1)
      else g1
  | None => g1
  end.

(** The inner loop on the error stream:
    [while (bufsz = process.err().readsome(buf, sizeof(buf)))]. *)
Fixpoint drain_err (pending : list string) (error_buffer : string)
  : list string * string :=
  match pending with
  | [] => ([], error_buffer)
  | error :: rest =>
      if (String.length error =? 0)%nat then (rest, error_buffer)
      else drain_err rest (error_buffer ++ error)
  end.

(** The inner loop on the output stream. *)
Fixpoint drain_out (trim_prompt : bool) (pending : list string)
    (output_buffer : string) (hit_prompt : bool)
  : list string * string * bool :=
  match pending with
  | [] => ([], output_buffer, hit_prompt)
  | output :: rest =>
      if (String.length output =? 0)%nat then (rest, output_buffer, hit_prompt)
      else if string_ends_with output GDB_PROMPT then
        let output' :=
          if trim_prompt
          then Str.erase output (String.length output - strlen GDB_PROMPT)
                         (String.length output)
          else output in
        drain_out trim_prompt rest (output_buffer ++ output') true
      else drain_out trim_prompt rest (output_buffer ++ output) hit_prompt
  end.

(** What a call of [read_until_prompt] leaves: the session, both stream
    buffers, and the final value of the local [hit_prompt]. *)
Record Drained := mk_Drained {
  d_gdb : GDB;
  d_output : string;
  d_error : string;
  d_hit_prompt : bool
}.

(** The outer loop [while (is_alive() && !hit_prompt)], entered with the
    given value of [hit_prompt].  [fuel] bounds the number of evaluations
    of the loop condition; [None] means the loop is still spinning. *)
Fixpoint read_until_prompt_loop (fuel : nat) (hit_prompt : bool) (g : GDB)
    (output_buffer error_buffer : string) (trim_prompt : bool)
  : option Drained :=
  match fuel with
  | O => None
  | S fuel' =>
      let (alive, g1) := is_alive g in
      if alive && negb hit_prompt then
        let p1 := process g1 in
        let (err_rest, error_buffer') := drain_err (err_pending p1) error_buffer in
        let p2 := set_err_pending err_rest p1 in
        let '(out_rest, output_buffer', hit_prompt') :=
          drain_out trim_prompt (out_pending p2) output_buffer hit_prompt in
        let p3 := set_out_pending out_rest p2 in
        read_until_prompt_loop fuel' hit_prompt' (set_process p3 g1)
                               output_buffer' error_buffer' trim_prompt
      else Some (mk_Drained g1 output_buffer error_buffer hit_prompt)
  end.

(** Read whatever output and error is stored in the process. *)
Definition read_until_prompt (fuel : nat) (g : GDB)
    (output_buffer error_buffer : string) (trim_prompt : bool)
  : option Drained :=
  read_until_prompt_loop fuel false g output_buffer error_buffer trim_prompt.

(** PRIVATE (error is discarded, not recommended for normal use) *)
Definition get_execution_output (fuel : nat) (line : string) (g : GDB)
  : option (string * GDB) :=
  let g1 := set_process (insert_line line (process g)) g in
  match read_until_prompt fuel g1 "" "" true with
  | Some d => Some (d_output d, d_gdb d)
  | None => None
  end.

(** Returns true if the GDB process is running/debugging a program. *)
Definition is_running_program (fuel : nat) (g : GDB) : option (bool * GDB) :=
  if running_program_flag g then
    match get_execution_output fuel GDB_PROGRAM_STATUS g with
    | Some (program_status, g1) =>
        let g2 := set_running_program
                    (negb (string_contains program_status "not being run")) g1 in
        let g3 := set_running_program_flag false g2 in
        Some (running_program g3, g3)
    | None => None
    end
  else Some (running_program g, g).

Definition GDB_SOURCE_LIST : string := "list".
Definition GDB_ASSEMBLY_LIST : string := "disassemble".

(** [GDB::get_source_code]: the listing, for a running program only. *)
Definition get_source_code (fuel : nat) (g : GDB) : option (string * GDB) :=
  match is_running_program fuel g with
  | Some (running, g1) =>
      (* A running program has source code that can be printed *)
      if running then get_execution_output fuel GDB_SOURCE_LIST g1
      (* Not relevant for programs that aren't running *)
      else Some ("", g1)
  | None => None
  end.

(** [GDB::get_assembly_code]: the disassembly, for a running program only. *)
Definition get_assembly_code (fuel : nat) (g : GDB) : option (string * GDB) :=
  match is_running_program fuel g with
  | Some (running, g1) =>
      if running then get_execution_output fuel GDB_ASSEMBLY_LIST g1
      else Some ("", g1)
  | None => None
  end.

(** ** The console ([update_console_and_gui], [open_console]) *)

(** The rest of the world the console thread touches:
    - [cin]: the lines the coming [readline] calls return; after them
      [readline] returns the null pointer (end of input);
    - [cout], [cerr]: what was written to [std::cout] and [std::cerr]
      (the prompt [readline] displays is the terminal's and not part of it);
    - [history]: the lines given to [add_history];
    - [window_reports]: whether the coming [app->GetTopWindow()] calls find
      a window ([false] while [GDBApp::OnInit] has not run on the GUI
      thread); [window_settled] is the answer after those;
    - [queued]: the strings of the [gdbEVT_STATUS_BAR_UPDATE] events
      queued on the window's event handler, oldest first. *)
Record Console := mk_Console {
  cin : list string;
  cout : string;
  cerr : string;
  history : list string;
  window_reports : list bool;
  window_settled : bool;
  queued : list string
}.

Definition set_cin (l : list string) (c : Console) : Console :=
  mk_Console l (cout c) (cerr c) (history c) (window_reports c)
             (window_settled c) (queued c).
Definition set_cout (s : string) (c : Console) : Console :=
  mk_Console (cin c) s (cerr c) (history c) (window_reports c)
             (window_settled c) (queued c).
Definition set_cerr (s : string) (c : Console) : Console :=
  mk_Console (cin c) (cout c) s (history c) (window_reports c)
             (window_settled c) (queued c).
Definition set_history (l : list string) (c : Console) : Console :=
  mk_Console (cin c) (cout c) (cerr c) l (window_reports c)
             (window_settled c) (queued c).
Definition set_window_reports (l : list bool) (c : Console) : Console :=
  mk_Console (cin c) (cout c) (cerr c) (history c) l
             (window_settled c) (queued c).
Definition set_queued (l : list string) (c : Console) : Console :=
  mk_Console (cin c) (cout c) (cerr c) (history c) (window_reports c)
             (window_settled c) l.

(** [readline(GDB_PROMPT)]: one line, or the null pointer at end of input. *)
Definition readline (c : Console) : option string * Console :=
  match cin c with
  | [] => (None, c)
  | l :: rest => (Some l, set_cin rest c)
  end.

Definition add_history (line : string) (c : Console) : Console :=
  set_history (history c ++ [line])%list c.

(** [app->GetTopWindow()], as the test [if (window)] sees it. *)
Definition GetTopWindow (c : Console) : bool * Console :=
  match window_reports c with
  | [] => (window_settled c, c)
  | w :: rest => (w, set_window_reports rest c)
  end.

(** [window_handler->QueueEvent(sbu_event)] *)
Definition QueueEvent (text : string) (c : Console) : Console :=
  set_queued (queued c ++ [text])%list c.

Definition update_console_and_gui (fuel : nat) (g : GDB) (c : Console)
  : option (GDB * Console) :=
  (* Read from GDB to populate buffer *)
  match read_until_prompt fuel g (cout c) (cerr c) true with
  | None => None
  | Some d =>
      let c1 := set_cerr (d_error d) (set_cout (d_output d) c) in
      (* Create event to update GUI status bar *)
      match is_running_program fuel (d_gdb d) with
      | None => None
      | Some (running, g1) =>
          let sbu_event := if running then GDB_STATUS_RUNNING else GDB_STATUS_IDLE in
          (* Queue events if application has been initialized on separate thread *)
          let (window, c2) := GetTopWindow c1 in
          if window then Some (g1, QueueEvent sbu_event c2)
          else Some (g1, c2)
      end
  end.

(** The loop [while (gdb.is_alive())] of [open_console].  [fuel] bounds the
    evaluations of the loop condition and is handed on to the drains. *)
Fixpoint console_loop (fuel : nat) (g : GDB) (c : Console)
  : option (GDB * Console) :=
  match fuel with
  | O => None
  | S fuel' =>
      let (alive, g1) := is_alive g in
      if alive then
        (* Read one line from stdin to process (blocking) *)
        let (buf_input, c1) := readline c in
        match buf_input with
        | None =>
            (* A null pointer signals input EOF *)
            let c2 := set_cout (cout c1 ++ GDB_QUIT ++ Str.endl) c1 in
            let g2 := execute (Some GDB_QUIT) g1 in
            update_console_and_gui fuel' g2 c2
        | Some line =>
            if (strlen line =? 0)%nat then console_loop fuel' g1 c1
            else
              let c2 := add_history line c1 in
              let g2 := execute (Some line) g1 in
              match update_console_and_gui fuel' g2 c2 with
              | Some (g3, c3) => console_loop fuel' g3 c3
              | None => None
              end
        end
      else Some (g1, c)
  end.

(** [open_console]: create the session, show the introduction of gdb, then
    run the loop.  ([~GDB] closes the process when the scope is left.) *)
Definition open_console (fuel : nat) (argv : list string) (child : pstream)
    (c : Console) : option (GDB * Console) :=
  let gdb := GDB_new argv child in
  match update_console_and_gui fuel gdb c with
  | Some (g1, c1) => console_loop fuel g1 c1
  | None => None
  end.

(** ** The stack panel ([GDBStackPanel::SetStackFrame]) *)

Module StackPanel.

Local Open Scope Z_scope.

(** [long] is 64 bits wide; arithmetic on it wraps around. *)
Definition long_wrap (z : Z) : Z := (z + 2 ^ 63) mod 2 ^ 64 - 2 ^ 63.
Definition ladd (a b : Z) : Z := long_wrap (a + b).
Definition lsub (a b : Z) : Z := long_wrap (a - b).
Definition INT_MAX : Z := 2 ^ 31 - 1.

(** A [long *] array read and written at a [long] index.  C++ leaves an
    access outside the array undefined; the model reads [0] and writes
    nothing there. *)
Definition array_get (a : list Z) (i : Z) : Z :=
  if i <? 0 then 0 else default 0 (a !! Z.to_nat i).
Definition array_set (a : list Z) (i : Z) (v : Z) : list Z :=
  if i <? 0 then a else <[Z.to_nat i := v]> a.

(** Modelled from the spec: the declaration of [StackFrame] is not in the
    sources at hand; the fields are the ones [SetStackFrame] reads.
    [memory] is a pointer ([None] when null) to [memory_length] values. *)
Record StackFrame := mk_StackFrame {
  stack_pointer : Z;
  frame_pointer : Z;
  memory : option (list Z);
  memory_length : Z
}.

(** The members of [GDBStackPanel] that hold the stack image. *)
Record GDBStackPanel := mk_GDBStackPanel {
  stack_global : option (list Z);
  stack_size : Z;
  stack_top : Z
}.

(** [malloc(n * sizeof(long))]: a fresh array of [n] cells.  Their content
    is indeterminate in C++; every cell is written before it is read.  (A
    null result, which C++ allows for a size of zero, is not modelled.) *)
Definition malloc (n : Z) : list Z := repeat 0 (Z.to_nat n).

Section Copy.
Variables (frame_memory : list Z).
Variables (stack_frame_top stack_frame_bottom : Z).
Variables (the_stack_top stack_bottom new_stack_top : Z).

(** The copy loop [for (int index = 0; index < new_stack_size; index++)],
    with [n] iterations left.  [aliased] says that [new_stack] and
    [stack_global] are the same array, so that a write through the first
    is seen through the second.  (The model covers [new_stack_size] up to
    [INT_MAX]: beyond it the [int] counter overflows.) *)
Fixpoint copy_loop (n : nat) (index : Z) (aliased : bool)
    (new_stack old_stack : list Z) : list Z :=
  match n with
  | O => new_stack
  | S n' =>
      let address := ladd new_stack_top index in
      let value :=
        (* The stack frame takes precedence *)
        if (address >=? stack_frame_top) && (address <? stack_frame_bottom)
        then array_get frame_memory (lsub address stack_frame_top)
        (* The old stack is then used to fill the new stack's values *)
        else if (address >=? the_stack_top) && (address <? stack_bottom)
        then array_get old_stack (lsub address the_stack_top)
        (* Any unknown addresses are filled with 0's *)
        else 0 in
      let new_stack' := array_set new_stack index value in
      copy_loop n' (index + 1) aliased new_stack'
                (if aliased then new_stack' else old_stack)
  end.
End Copy.

(** The part of [SetStackFrame] that maintains the stack image.  (The grid
    widget is redrawn from the three members afterwards; those calls write
    none of them.) *)
Definition SetStackFrame (stack_frame : option StackFrame) (p : GDBStackPanel)
  : GDBStackPanel :=
  match stack_frame with
  | Some f =>
      match memory f with
      | Some mem =>
          match stack_global p with
          | Some old =>
              (* border addresses of the full stack & of the stack frame *)
              let stack_frame_top := stack_pointer f in
              let stack_frame_bottom := ladd (stack_pointer f) (memory_length f) in
              let stack_bottom := ladd (stack_top p) (stack_size p) in
              (* border addresses of the combined stack *)
              let new_stack_top :=
                if stack_frame_top <? stack_top p then stack_frame_top else stack_top p in
              let new_stack_bottom :=
                if stack_frame_bottom >? stack_bottom then stack_frame_bottom else stack_bottom in
              let new_stack_size := lsub new_stack_bottom new_stack_top in
              (* reuse the old array when the borders have not changed *)
              let aliased :=
                (new_stack_top =? stack_top p) && (new_stack_bottom =? stack_bottom) in
              let new_stack := if aliased then old else malloc new_stack_size in
              let new_stack' :=
                copy_loop mem stack_frame_top stack_frame_bottom (stack_top p)
                          stack_bottom new_stack_top
                          (Z.to_nat new_stack_size) 0 aliased new_stack old in
              mk_GDBStackPanel (Some new_stack') new_stack_size new_stack_top
          | None =>
              (* the stack frame is the entire stack: malloc and memcpy *)
              mk_GDBStackPanel
                (Some (firstn (Z.to_nat (memory_length f)) mem))
                (memory_length f) (stack_pointer f)
          end
      | None =>
          match stack_global p with
          | Some _ => mk_GDBStackPanel None 0 0
          | None => p
          end
      end
  | None =>
      match stack_global p with
      | Some _ => mk_GDBStackPanel None 0 0
      | None => p
      end
  end.

(** The value the merge gives the byte at [address]: the frame's where the
    frame covers it, else the old image's where that covers it, else zero. *)
Definition merged (frame_memory old_stack : list Z)
    (frame_top frame_bottom old_top old_bottom address : Z) : Z :=
  if (frame_top <=? address) && (address <? frame_bottom)
  then array_get frame_memory (address - frame_top)
  else if (old_top <=? address) && (address <? old_bottom)
  then array_get old_stack (address - old_top)
  else 0.

(** How the array the copy loop reads as the old stack relates to the old
    image [old0] when the loop is about to handle [index]: either it is a
    separate array, the old image itself; or it is the array being written,
    the new top [nt] is the old top [st], and the cells from [index] on
    still hold the old image. *)
Definition old_view (old0 : list Z) (nt st : Z) (aliased : bool) (index : Z)
    (new_stack old_stack : list Z) : Prop :=
  if aliased
  then old_stack = new_stack /\ nt = st /\
       forall j, index <= j -> array_get new_stack j = array_get old0 j
  else old_stack = old0.

(** The stack frames of the example: A covers [10, 20) with the values
    1 .. 10, B covers [15, 25) with the values 100 .. 109. *)
Definition frame_A : StackFrame :=
  mk_StackFrame 10 20 (Some [1; 2; 3; 4; 5; 6; 7; 8; 9; 10]) 10.
Definition frame_B : StackFrame :=
  mk_StackFrame 15 25 (Some [100; 101; 102; 103; 104; 105; 106; 107; 108; 109]) 10.

(** The panel as its constructor leaves it:
    [stack_global(NULL), stack_size(0), stack_top(0)]. *)
Definition empty_panel : GDBStackPanel := mk_GDBStackPanel None 0 0.

End StackPanel.

(** ** Numbers as text ([long_to_string]) *)

(** [conversion << value] for a [long]: decimal digits, with a minus sign
    for a negative value. *)
Definition decimal_text (value : Z) : string :=
  DecimalString.NilZero.string_of_int (Z.to_int value).

(** [conversion << std::hex << value] for a [long]: the hexadecimal digits,
    in lower case, of the value taken as an unsigned 64-bit number. *)
Definition hex_text (value : Z) : string :=
  HexadecimalString.NilZero.string_of_uint
    (N.to_hex_uint (Z.to_N (value mod 2 ^ 64))).

(** [use_hex] is an [int]: any value but zero asks for hexadecimal. *)
Definition long_to_string (value : Z) (use_hex : Z) : string :=
  if (use_hex =? 0)%Z then decimal_text value
  else "0x" ++ hex_text value.

(** ** The grid of the stack panel *)

Module StackGrid.
Import StackPanel.

Local Open Scope Z_scope.

(** The calls [SetStackFrame] makes on its [wxGrid]. *)
Inductive GridCall : Type :=
| DeleteRows (pos numRows : Z)
| AppendRows (numRows : Z)
| SetCellValue (row col : Z) (text : string)
| SetRowLabelValue (row : Z) (text : string)
| SetCellBackgroundColour (row col : Z) (red green blue : Z).

(** The grid: its number of rows ([GetNumberRows]) and the calls made on it
    so far, oldest first.  Deleting and appending rows changes the number
    of rows; the other calls leave it. *)
Record wxGrid := mk_wxGrid {
  NumberRows : Z;
  grid_calls : list GridCall
}.

Definition grid_call (call : GridCall) (grid : wxGrid) : wxGrid :=
  mk_wxGrid
    match call with
    | DeleteRows _ numRows => Z.max 0 (NumberRows grid - numRows)
    | AppendRows numRows => NumberRows grid + numRows
    | _ => NumberRows grid
    end
    (grid_calls grid ++ [call]).

(** The five calls [for (long col2 = 0; col2 < 5; col2++)] that grey out a
    row. *)
Definition grey_row (row : Z) : list GridCall :=
  map (fun col2 => SetCellBackgroundColour row col2 200 200 200) [0; 1; 2; 3; 4].

(** The body of the drawing loop for one [index]. *)
Definition draw_value (f : StackFrame) (image : list Z) (the_stack_top : Z)
    (index : Z) : list GridCall :=
  let value := array_get image index in
  let address := ladd the_stack_top index in
  let row := Z.quot index 4 in
  let col := Z.rem index 4 in
  (* Set the row address & frame pointer offset *)
  (if col =? 0 then
     SetCellValue row 0 (long_to_string (ladd the_stack_top index) 1)
     :: (if address <? stack_pointer f
         then SetRowLabelValue row "n/a" :: grey_row row
         else [SetRowLabelValue row
                 (long_to_string (lsub address (frame_pointer f)) 0)])
     ++ (if address =? stack_pointer f
         then [SetCellBackgroundColour row 0 255 255 124]
         else if address =? frame_pointer f
         then [SetCellBackgroundColour row 0 182 149 192]
         else [])
   else [])
  (* Set the cell value to be the stack value *)
  ++ [SetCellValue row (col + 1) (long_to_string value 1)].

(** The loop [for (int index = 0; index < stack_size; index++)], with [n]
    iterations left. *)
Fixpoint draw_loop (f : StackFrame) (image : list Z) (the_stack_top : Z)
    (n : nat) (index : Z) : list GridCall :=
  match n with
  | O => []
  | S n' =>
      (draw_value f image the_stack_top index
       ++ draw_loop f image the_stack_top n' (index + 1))%list
  end.

(** What is drawn for the panel [p] after its image was updated. *)
Definition draw (f : StackFrame) (p : GDBStackPanel) : list GridCall :=
  AppendRows (Z.quot (stack_size p) 4)
  :: draw_loop f (default [] (stack_global p)) (stack_top p)
               (Z.to_nat (stack_size p)) 0.

(** [GDBStackPanel::SetStackFrame] as a whole: the old rows are deleted,
    the image is updated ([StackPanel.SetStackFrame]), and for a frame
    with memory the grid is drawn anew. *)
Definition SetStackFrame (stack_frame : option StackFrame)
    (p : GDBStackPanel) (grid : wxGrid) : GDBStackPanel * wxGrid :=
  (* Delete old rows from the grid *)
  let grid1 :=
    if NumberRows grid =? 0 then grid
    else grid_call (DeleteRows 0 (NumberRows grid)) grid in
  let p' := StackPanel.SetStackFrame stack_frame p in
  match stack_frame with
  | Some f =>
      match memory f with
      | Some _ => (p', fold_left (fun g call => grid_call call g) (draw f p') grid1)
      | None => (p', grid1)
      end
  | None => (p', grid1)
  end.

(** A call that draws into the grid without changing its rows. *)
Definition paints (call : GridCall) : Prop :=
  match call with
  | DeleteRows _ _ | AppendRows _ => False
  | _ => True
  end.

End StackGrid.

(** ** Well-formed stack images *)

Module StackWindow.
Import StackPanel.

Local Open Scope Z_scope.

(** An address window the [long] and [int] arithmetic of the merge is
    exact on. *)
Definition window (lo hi : Z) : Prop :=
  - 2 ^ 63 <= lo /\ hi < 2 ^ 63 /\ hi - lo <= INT_MAX.

(** The frame holds as many values as its length says and lies within the
    addresses [lo, hi); nothing is asked of a null frame or null memory. *)
Definition frame_within (lo hi : Z) (stack_frame : option StackFrame) : Prop :=
  match stack_frame with
  | Some f =>
      match memory f with
      | Some mem =>
          Z.of_nat (length mem) = memory_length f
          /\ lo <= stack_pointer f
          /\ stack_pointer f + memory_length f <= hi
      | None => True
      end
  | None => True
  end.

(** The panel holds an image of [stack_size] values within [lo, hi), or no
    image and zero size and top. *)
Definition panel_within (lo hi : Z) (p : GDBStackPanel) : Prop :=
  match stack_global p with
  | Some image =>
      Z.of_nat (length image) = stack_size p
      /\ lo <= stack_top p
      /\ stack_top p + stack_size p <= hi
  | None => stack_size p = 0 /\ stack_top p = 0
  end.

(** The panel after a series of calls of [SetStackFrame], oldest first. *)
Definition after_frames (frames : list (option StackFrame)) (p : GDBStackPanel)
  : GDBStackPanel :=
  fold_left (fun q stack_frame => SetStackFrame stack_frame q) frames p.

End StackWindow.

(** ** The application and its frame ([GDBApp::OnInit], [GDBFrame]) *)

Module App.

Local Open Scope Z_scope.

(** The loop of [OnInit] that builds the command line shown in the About
    box: [for (int i = 1; i < argc; i++)], entered here with the arguments
    from index [i] on. *)
Fixpoint append_args (argc i : Z) (rest : list string) (args : string) : string :=
  match rest with
  | [] => args
  | arg :: rest' =>
      let args1 := (args ++ arg)%string in
      let args2 := if i <? argc - 1 then (args1 ++ " ")%string else args1 in
      append_args argc (i + 1) rest' args2
  end.

Definition build_args (argv : list string) : string :=
  append_args (Z.of_nat (length argv)) 1 (tl argv) "".

(** The position and the size [OnInit] gives the frame on a screen of
    [screen_x] by [screen_y] pixels; [/] on [long] truncates. *)
Definition frame_size (screen_x screen_y : Z) : Z * Z :=
  (Z.quot screen_x 2, Z.quot screen_y 2).
Definition frame_position (screen_x screen_y : Z) : Z * Z :=
  let frame_x := Z.quot screen_x 2 in
  let frame_y := Z.quot screen_y 2 in
  (Z.quot (screen_x - frame_x) 2, Z.quot (screen_y - frame_y) 2).

(** The text of the status bar of the frame. *)
Record GDBFrame := mk_GDBFrame { StatusText : string }.

(** The constructor: [SetStatusText(GDB_STATUS_IDLE)]. *)
Definition GDBFrame_new : GDBFrame := mk_GDBFrame GDB_STATUS_IDLE.

(** [GDBFrame::DoStatusBarUpdate]: [SetStatusText(event.GetString())]. *)
Definition DoStatusBarUpdate (event : string) (frame : GDBFrame) : GDBFrame :=
  mk_GDBFrame event.

(** The GUI thread handling queued events, oldest first. *)
Definition handle_events (events : list string) (frame : GDBFrame) : GDBFrame :=
  fold_left (fun fr event => DoStatusBarUpdate event fr) events frame.

End App.

(** ** Vocabulary of the statements *)

(** A session on a child with the given script, nothing sent so far. *)
Definition session (reports : list (bool * bool)) (settled : bool * bool)
    (out err : list string) : GDB :=
  GDB_new [] (mk_pstream "" reports settled out err).

(** [n] calls of [is_running_program] in a row: the answers, and the session
    after the last one. *)
Fixpoint query_status (n fuel : nat) (g : GDB) : option (list bool * GDB) :=
  match n with
  | O => Some ([], g)
  | S n' =>
      match is_running_program fuel g with
      | Some (b, g1) =>
          match query_status n' fuel g1 with
          | Some (bs, g2) => Some (b :: bs, g2)
          | None => None
          end
      | None => None
      end
  end.

(** The chunks one run of an inner loop reads: those before the first read
    that finds nothing. *)
Fixpoint burst (pending : list string) : list string :=
  match pending with
  | [] => []
  | chunk :: rest =>
      if (String.length chunk =? 0)%nat then [] else chunk :: burst rest
  end.

Definition ends_with_prompt (chunk : string) : bool :=
  string_ends_with chunk GDB_PROMPT.

(** The answer of gdb to a command while no program is being debugged. *)
Definition idle_answer : string :=
  "The program being debugged is not being run." ++ Str.endl ++ GDB_PROMPT.

(** A console with nothing typed and nothing written yet. *)
Definition console (lines : list string) (windows : list bool) : Console :=
  mk_Console lines "" "" [] windows true [].

(** A report that says the child has exited. *)
Definition exited (report : bool * bool) : bool := fst report || snd report.

(** The child is gone: every coming poll reports the exit. *)
Definition gone (p : pstream) : bool :=
  forallb exited (exit_reports p) && exited (exit_settled p).

(** The child exits and stays so: after the first report of the exit every
    later poll reports it too, and the polls do reach such a report. *)
Fixpoint exit_is_final (reports : list (bool * bool)) (settled : bool * bool) : bool :=
  match reports with
  | [] => exited settled
  | r :: rs =>
      if exited r then forallb exited rs && exited settled
      else exit_is_final rs settled
  end.

(** All the bytes of a list of chunks, in order. *)
Definition concat_chunks (chunks : list string) : string :=
  fold_right String.append "" chunks.

(** The test [strlen(buf_input)] of the console loop. *)
Definition nonempty (line : string) : bool := negb (strlen line =? 0)%nat.

(** [s] starts with [t]. *)
Definition starts_with (s t : string) : Prop := exists rest, s = t ++ rest.

(** The list [l] starts with the list [k]. *)
Definition extends {A : Type} (l k : list A) : Prop := exists more, l = (k ++ more)%list.

(** The status query [is_running_program] sends, if any. *)
Definition status_query (g : GDB) : string :=
  if running_program_flag g then GDB_PROGRAM_STATUS ++ Str.endl else "".


(** The next [m] polls find the child alive. *)
Definition alive_for (m : nat) (p : pstream) : Prop :=
  forall i, (i < m)%nat -> nth i (exit_reports p) (exit_settled p) = (false, false).

(** The number of reads, among the pending ones, that find nothing. *)
Definition idle_reads (pending : list string) : nat :=
  length (List.filter (fun chunk => (String.length chunk =? 0)%nat) pending).

(** A series of [execute] calls, in order. *)
Definition execute_all (lines : list string) (g : GDB) : GDB :=
  fold_left (fun h line => execute (Some line) h) lines g.

(** * Properties *)

(** ** Polls and the liveness test *)

Section Session.

Implicit Types (g : GDB) (p : pstream) (line : option string).

Lemma polled_sent p : sent (polled p) = sent p.
Proof. unfold polled, exited_poll. destruct (exit_reports p); reflexivity. Qed.

Lemma polled_out_pending p : out_pending (polled p) = out_pending p.
Proof. unfold polled, exited_poll. destruct (exit_reports p); reflexivity. Qed.

Lemma polled_err_pending p : err_pending (polled p) = err_pending p.
Proof. unfold polled, exited_poll. destruct (exit_reports p); reflexivity. Qed.

Lemma polled_exit_settled p : exit_settled (polled p) = exit_settled p.
Proof. unfold polled, exited_poll. destruct (exit_reports p); reflexivity. Qed.

Lemma polled_exit_reports p : exit_reports (polled p) = tl (exit_reports p).
Proof.
  unfold polled, exited_poll.
  destruct (exit_reports p) eqn:E; simpl; [now rewrite E | reflexivity].
Qed.

Lemma is_alive_state g : snd (is_alive g) = set_process (polled (process g)) g.
Proof.
  unfold is_alive, polled.
  destruct (exited_poll (process g)) as [[o e] p']. reflexivity.
Qed.

Lemma is_alive_value g :
  fst (is_alive g) =
  negb (fst (fst (exited_poll (process g))) || snd (fst (exited_poll (process g)))).
Proof.
  unfold is_alive.
  destruct (exited_poll (process g)) as [[o e] p']. reflexivity.
Qed.

Lemma is_alive_pair g :
  is_alive g = (fst (is_alive g), set_process (polled (process g)) g).
Proof. rewrite <- is_alive_state. now destruct (is_alive g). Qed.

(** A session whose process has exited for good is not changed by a poll. *)
Lemma polled_settled p : exit_reports p = [] -> polled p = p.
Proof. intros H. unfold polled, exited_poll. now rewrite H. Qed.

End Session.

(** ** C3: [is_alive] *)

(** C3, as the code has it: [is_alive] returns true exactly when neither
    output channel reports that the child has exited; one channel reporting
    the exit is enough to make it return false. *)
Theorem is_alive_iff_no_channel_exited (g : GDB) :
  fst (is_alive g) =
  negb (fst (fst (exited_poll (process g))) || snd (fst (exited_poll (process g))))
  /\ (fst (is_alive g) = true <->
      fst (exited_poll (process g)) = (false, false)).
Proof.
  split; [apply is_alive_value |].
  rewrite is_alive_value.
  destruct (exited_poll (process g)) as [[[] []] p']; simpl; split;
    intros H; congruence.
Qed.

(** C3, as stated, fails: here only the output channel reports the exit, the
    error channel does not, and [is_alive] returns false. *)
Lemma is_alive_one_channel_exited :
  let g := session [(true, false)] (false, false) [] [] in
  fst (exited_poll (process g)) = (true, false) /\ fst (is_alive g) = false.
Proof. split; reflexivity. Qed.

(** ** C10: [execute] with a null pointer *)

(** C10: [execute] of a null pointer only performs the liveness poll: the
    bytes sent to the child, the dirty flag, the cached status and the
    pending output are what they were, whatever the poll answers. *)
Theorem execute_null_noop (g : GDB) :
  execute None g = snd (is_alive g)
  /\ sent (process (execute None g)) = sent (process g)
  /\ running_program_flag (execute None g) = running_program_flag g
  /\ running_program (execute None g) = running_program g
  /\ out_pending (process (execute None g)) = out_pending (process g)
  /\ err_pending (process (execute None g)) = err_pending (process g).
Proof.
  unfold execute. rewrite (is_alive_pair g). simpl.
  rewrite polled_sent, polled_out_pending, polled_err_pending. tauto.
Qed.

(** ** C7: a session that is not alive *)

(** C7: when the liveness test fails, [execute] writes nothing and changes
    neither flag (all it did is the poll), and [read_until_prompt] returns at
    its first test of the loop condition: both buffers are as they were
    and the prompt flag is not set. *)
Theorem not_alive_execute_and_drain_do_nothing
    (g : GDB) (line : option string) (fuel : nat)
    (output_buffer error_buffer : string) (trim_prompt : bool) :
  fst (is_alive g) = false ->
  execute line g = snd (is_alive g)
  /\ sent (process (execute line g)) = sent (process g)
  /\ running_program_flag (execute line g) = running_program_flag g
  /\ running_program (execute line g) = running_program g
  /\ read_until_prompt (S fuel) g output_buffer error_buffer trim_prompt
     = Some (mk_Drained (snd (is_alive g)) output_buffer error_buffer false)
  /\ (exit_reports (process g) = [] -> execute line g = g /\ snd (is_alive g) = g).
Proof.
  intros Hdead.
  assert (Hex : execute line g = snd (is_alive g)).
  { unfold execute. destruct (is_alive g) as [alive g1]. simpl in *. subst alive.
    now destruct line. }
  rewrite Hex, is_alive_state. simpl. rewrite polled_sent.
  repeat split.
  - unfold read_until_prompt. simpl. rewrite (is_alive_pair g), Hdead. reflexivity.
  - rewrite (polled_settled _ H). now destruct g.
  - rewrite (polled_settled _ H). now destruct g.
Qed.

(** At a session closed for good both calls leave the session as it is. *)
Lemma not_alive_execute_and_drain_do_nothing_witness :
  let g := session [] (true, true) [] [] in
  fst (is_alive g) = false
  /\ execute (Some "run") g = g
  /\ read_until_prompt 1 g "" "" true = Some (mk_Drained g "" "" false).
Proof.
  intros g.
  pose proof (not_alive_execute_and_drain_do_nothing g (Some "run") 0 "" "" true
                eq_refl) as (H1 & _ & _ & _ & H5 & H6).
  destruct (H6 eq_refl) as [H7 H8].
  split; [reflexivity |]. split; [exact H7 |].
  rewrite H5, H8. reflexivity.
Defined.

(** ** What a drain leaves untouched *)

Lemma read_until_prompt_loop_frame (fuel : nat) :
  forall hit g out err trim d,
    read_until_prompt_loop fuel hit g out err trim = Some d ->
    sent (process (d_gdb d)) = sent (process g)
    /\ running_program_flag (d_gdb d) = running_program_flag g
    /\ running_program (d_gdb d) = running_program g
    /\ exit_settled (process (d_gdb d)) = exit_settled (process g).
Proof.
  induction fuel as [| fuel IH]; intros hit g out err trim d H; [discriminate |].
  simpl in H. rewrite (is_alive_pair g) in H.
  destruct (fst (is_alive g) && negb hit).
  - simpl in H.
    destruct (drain_err _ _) as [err_rest err'].
    destruct (drain_out _ _ _ _) as [[out_rest out'] hit'].
    apply IH in H. simpl in H.
    rewrite polled_sent, polled_exit_settled in H. exact H.
  - injection H as <-. simpl.
    rewrite polled_sent, polled_exit_settled. tauto.
Qed.

Lemma read_until_prompt_frame fuel g out err trim d :
  read_until_prompt fuel g out err trim = Some d ->
  sent (process (d_gdb d)) = sent (process g)
  /\ running_program_flag (d_gdb d) = running_program_flag g
  /\ running_program (d_gdb d) = running_program g
  /\ exit_settled (process (d_gdb d)) = exit_settled (process g).
Proof. apply read_until_prompt_loop_frame. Qed.

(** ** More fuel does not change a result *)

Lemma read_until_prompt_loop_fuel (fuel : nat) :
  forall fuel' hit g out err trim d,
    (fuel <= fuel')%nat ->
    read_until_prompt_loop fuel hit g out err trim = Some d ->
    read_until_prompt_loop fuel' hit g out err trim = Some d.
Proof.
  induction fuel as [| fuel IH]; intros fuel' hit g out err trim d Hle H;
    [discriminate |].
  destruct fuel' as [| fuel']; [lia |].
  cbn [read_until_prompt_loop] in *.
  destruct (is_alive g) as [alive g1].
  destruct (alive && negb hit); [| exact H].
  destruct (drain_err _ _) as [err_rest err'].
  destruct (drain_out _ _ _ _) as [[out_rest out'] hit'].
  apply (IH fuel'); [lia | exact H].
Qed.

Lemma is_running_program_fuel fuel fuel' g r :
  (fuel <= fuel')%nat ->
  is_running_program fuel g = Some r ->
  is_running_program fuel' g = Some r.
Proof.
  intros Hle. unfold is_running_program, get_execution_output, read_until_prompt.
  destruct (running_program_flag g); [| tauto].
  destruct (read_until_prompt_loop fuel _ _ _ _ _) as [d |] eqn:Hd; [| discriminate].
  now rewrite (read_until_prompt_loop_fuel _ _ _ _ _ _ _ _ Hle Hd).
Qed.

Lemma update_console_and_gui_fuel fuel fuel' g c r :
  (fuel <= fuel')%nat ->
  update_console_and_gui fuel g c = Some r ->
  update_console_and_gui fuel' g c = Some r.
Proof.
  intros Hle. unfold update_console_and_gui, read_until_prompt.
  destruct (read_until_prompt_loop fuel _ _ _ _ _) as [d |] eqn:Hd; [| discriminate].
  rewrite (read_until_prompt_loop_fuel _ _ _ _ _ _ _ _ Hle Hd).
  destruct (is_running_program fuel (d_gdb d)) as [[running g1] |] eqn:Hrun;
    [| discriminate].
  now rewrite (is_running_program_fuel _ _ _ _ Hle Hrun).
Qed.

Lemma console_loop_fuel (fuel : nat) :
  forall fuel' g c r,
    (fuel <= fuel')%nat ->
    console_loop fuel g c = Some r ->
    console_loop fuel' g c = Some r.
Proof.
  induction fuel as [| fuel IH]; intros fuel' g c r Hle H; [discriminate |].
  destruct fuel' as [| fuel']; [lia |].
  cbn [console_loop] in *.
  destruct (is_alive g) as [[] g1]; [| exact H].
  destruct (readline c) as [[line |] c1].
  - destruct (strlen line =? 0)%nat; [apply (IH fuel'); [lia | exact H] |].
    destruct (update_console_and_gui fuel _ _) as [[g3 c3] |] eqn:Hup; [| discriminate].
    rewrite (update_console_and_gui_fuel fuel fuel' _ _ _ ltac:(lia) Hup).
    apply (IH fuel'); [lia | exact H].
  - apply (update_console_and_gui_fuel fuel fuel'); [lia | exact H].
Qed.

(** ** The cached status *)

Lemma is_running_program_clean fuel g :
  running_program_flag g = false ->
  is_running_program fuel g = Some (running_program g, g).
Proof. intros H. unfold is_running_program. now rewrite H. Qed.

Lemma is_running_program_result fuel g b g' :
  is_running_program fuel g = Some (b, g') ->
  running_program_flag g' = false /\ running_program g' = b.
Proof.
  unfold is_running_program.
  destruct (running_program_flag g) eqn:Hflag.
  - destruct (get_execution_output _ _ _) as [[status g1] |]; [| discriminate].
    intros H. injection H as <- <-. split; reflexivity.
  - intros H. injection H as <- <-. split; [exact Hflag | reflexivity].
Qed.

Lemma query_status_clean n fuel g :
  running_program_flag g = false ->
  query_status n fuel g = Some (repeat (running_program g) n, g).
Proof.
  intros H. induction n as [| n IH]; simpl; [reflexivity |].
  rewrite (is_running_program_clean _ _ H), IH. reflexivity.
Qed.

(** ** C5: a fresh session is not running a program *)

(** C5: on the session the constructor builds, [is_running_program] returns
    false at once: the session is left as it was, so nothing was sent to
    the child (no status query) and no answer of the child was consumed.
    The same holds after a drain of the fresh session (the introduction of
    gdb), as long as nothing was executed. *)
Theorem is_running_program_fresh :
  (forall fuel args child,
      is_running_program fuel (GDB_new args child) = Some (false, GDB_new args child)
      /\ sent (process (GDB_new args child)) = "")
  /\ (forall fuel fuel' args child out err trim d,
        read_until_prompt fuel (GDB_new args child) out err trim = Some d ->
        is_running_program fuel' (d_gdb d) = Some (false, d_gdb d)
        /\ sent (process (d_gdb d)) = "").
Proof.
  split; [intros; split; reflexivity |].
  intros fuel fuel' args child out err trim d Hd.
  apply read_until_prompt_frame in Hd as (Hsent & Hflag & Hrun & _).
  simpl in Hsent, Hflag, Hrun.
  rewrite (is_running_program_clean fuel' (d_gdb d) Hflag), Hrun.
  split; [reflexivity | exact Hsent].
Qed.

Lemma is_running_program_fresh_witness :
  let child := mk_pstream "" [] (false, false) ["GNU gdb" ++ Str.endl ++ GDB_PROMPT] [] in
  exists d,
    read_until_prompt 2 (GDB_new ["prog"] child) "" "" true = Some d
    /\ d_output d = "GNU gdb" ++ Str.endl
    /\ is_running_program 0 (d_gdb d) = Some (false, d_gdb d).
Proof.
  intros child. eexists. split; [reflexivity |]. split; [reflexivity |].
  exact (proj1 (proj2 is_running_program_fresh 2 0 ["prog"] child "" "" true _ eq_refl)).
Defined.

(** ** The status query *)

(** A dirty flag makes [is_running_program] send the status query and
    compute the status from the answer. *)
Lemma is_running_program_dirty fuel g b g' :
  running_program_flag g = true ->
  is_running_program fuel g = Some (b, g') ->
  sent (process g') = sent (process g) ++ GDB_PROGRAM_STATUS ++ Str.endl
  /\ exists d,
      read_until_prompt fuel
        (set_process (insert_line GDB_PROGRAM_STATUS (process g)) g) "" "" true
      = Some d
      /\ b = negb (string_contains (d_output d) "not being run").
Proof.
  intros Hflag. unfold is_running_program, get_execution_output. rewrite Hflag.
  destruct (read_until_prompt _ _ _ _ _) as [d |] eqn:Hd; [| discriminate].
  intros H. injection H as <- <-. simpl.
  apply read_until_prompt_frame in Hd as (Hs & _). simpl in Hs.
  split; [exact Hs | exists d; split; reflexivity].
Qed.

(** ** Strings: suffix test and erase *)

Section Strings.

Implicit Types (s b p : string).

Lemma length_append s1 s2 :
  String.length (s1 ++ s2) = (String.length s1 + String.length s2)%nat.
Proof. induction s1 as [| a s1 IH]; simpl; [reflexivity | now rewrite IH]. Qed.

Lemma append_nil_r s : s ++ "" = s.
Proof. induction s as [| a s IH]; simpl; [reflexivity | now rewrite IH]. Qed.

Lemma append_assoc s1 s2 s3 : (s1 ++ s2) ++ s3 = s1 ++ (s2 ++ s3).
Proof. induction s1 as [| a s1 IH]; simpl; [reflexivity | now rewrite IH]. Qed.

Lemma list_ascii_of_string_append s1 s2 :
  list_ascii_of_string (s1 ++ s2)
  = (list_ascii_of_string s1 ++ list_ascii_of_string s2)%list.
Proof. induction s1 as [| a s1 IH]; simpl; [reflexivity | now rewrite IH]. Qed.

Lemma equal_app_r (l r : list ascii) : Str.equal l (l ++ r)%list = true.
Proof.
  induction l as [| a l IH]; simpl; [reflexivity |].
  now rewrite Ascii.eqb_refl, IH.
Qed.

(** A string ends with what was appended to it last. *)
Lemma string_ends_with_append b p : string_ends_with (b ++ p) p = true.
Proof.
  unfold string_ends_with. rewrite length_append.
  destruct (Nat.ltb_spec (String.length b + String.length p) (String.length p));
    [lia |].
  unfold Str.rrange. rewrite list_ascii_of_string_append, rev_app_distr.
  apply equal_app_r.
Qed.

Lemma substring_prefix b p : substring 0 (String.length b) (b ++ p) = b.
Proof.
  induction b as [| a b IH]; simpl; [now destruct p | now rewrite IH].
Qed.

Lemma substring_at_end s : substring (String.length s) 0 s = "".
Proof. induction s as [| a s IH]; simpl; [reflexivity | exact IH]. Qed.

(** Erasing the last [length p] characters of [b ++ p] leaves [b]. *)
Lemma erase_suffix b p :
  Str.erase (b ++ p) (String.length (b ++ p) - String.length p)
            (String.length (b ++ p)) = b.
Proof.
  unfold Str.erase. rewrite length_append.
  replace (String.length b + String.length p - String.length p)%nat
    with (String.length b) by lia.
  replace (Nat.min (String.length b + String.length p)
                   (String.length b + String.length p - String.length b))
    with (String.length p) by lia.
  rewrite Nat.sub_diag, substring_prefix.
  rewrite <- length_append, substring_at_end. apply append_nil_r.
Qed.

End Strings.

(** ** The inner loops *)

(** The prompt flag after the inner loop: set before, or some chunk read by
    this run ends with the prompt. *)
Lemma drain_out_hit trim pending :
  forall out hit,
    snd (drain_out trim pending out hit)
    = hit || existsb ends_with_prompt (burst pending).
Proof.
  induction pending as [| chunk rest IH]; intros out hit; simpl.
  - now rewrite orb_false_r.
  - destruct (String.length chunk =? 0)%nat; simpl; [now rewrite orb_false_r |].
    unfold ends_with_prompt at 1.
    destruct (string_ends_with chunk GDB_PROMPT); simpl; rewrite IH.
    + now rewrite orb_true_r.
    + reflexivity.
Qed.

(** Chunks that do not end with the prompt are appended as they are. *)
Lemma drain_out_plain trim chunks :
  forall tail out hit,
    Forall (fun c => c <> "" /\ ends_with_prompt c = false) chunks ->
    drain_out trim (chunks ++ tail)%list out hit
    = drain_out trim tail (fold_left String.append chunks out) hit.
Proof.
  induction chunks as [| c chunks IH]; intros tail out hit Hall; [reflexivity |].
  inversion Hall as [| ? ? [Hne Hend] Hall']; subst. simpl.
  destruct c as [| a c]; [congruence |]. simpl String.length. simpl Nat.eqb.
  unfold ends_with_prompt in Hend. rewrite Hend.
  now apply IH.
Qed.

(** What is left of the pending reads is a suffix of them. *)
Lemma drain_out_rest trim pending :
  forall out hit, exists taken,
    pending = (taken ++ fst (fst (drain_out trim pending out hit)))%list.
Proof.
  induction pending as [| chunk rest IH]; intros out hit; simpl.
  - now exists [].
  - destruct (String.length chunk =? 0)%nat; simpl; [now exists [chunk] |].
    destruct (string_ends_with chunk GDB_PROMPT).
    + destruct (IH (out ++ (if trim
                           then Str.erase chunk (String.length chunk - strlen GDB_PROMPT)
                                          (String.length chunk)
                           else chunk)) true) as [taken Ht].
      exists (chunk :: taken). simpl. f_equal. exact Ht.
    + destruct (IH (out ++ chunk) hit) as [taken Ht].
      exists (chunk :: taken). simpl. f_equal. exact Ht.
Qed.

Lemma burst_incl pending c : In c (burst pending) -> In c pending.
Proof.
  induction pending as [| chunk rest IH]; simpl; [tauto |].
  destruct (String.length chunk =? 0)%nat; simpl; [tauto |].
  intros [-> | H]; [now left | right; now apply IH].
Qed.

(** ** The drain loop *)

Lemma is_alive_settled g :
  exit_reports (process g) = [] ->
  is_alive g = (negb (fst (exit_settled (process g)) || snd (exit_settled (process g))), g).
Proof.
  intros H. unfold is_alive, exited_poll. rewrite H.
  destruct (exit_settled (process g)) as [o e]. simpl. now destruct g.
Qed.

(** A child that stays alive and never ends a chunk with the prompt keeps
    the drain spinning: no amount of fuel lets it return. *)
Lemma read_until_prompt_loop_spins (fuel : nat) :
  forall g out err trim,
    exit_reports (process g) = [] ->
    exit_settled (process g) = (false, false) ->
    Forall (fun c => ends_with_prompt c = false) (out_pending (process g)) ->
    read_until_prompt_loop fuel false g out err trim = None.
Proof.
  induction fuel as [| fuel IH]; intros g out err trim Hrep Hset Hall; [reflexivity |].
  simpl. rewrite (is_alive_settled g Hrep), Hset. simpl.
  destruct (drain_err (err_pending (process g)) err) as [err_rest err'].
  pose proof (drain_out_hit trim (out_pending (process g)) out false) as Hhit.
  destruct (drain_out_rest trim (out_pending (process g)) out false) as [taken Htaken].
  destruct (drain_out trim (out_pending (process g)) out false)
    as [[out_rest out'] hit'].
  simpl in Hhit, Htaken.
  assert (hit' = false) as ->.
  { rewrite Hhit. apply not_true_is_false. intros Hex.
    apply existsb_exists in Hex as (c & Hin & Hc).
    apply burst_incl in Hin.
    rewrite List.Forall_forall in Hall.
    rewrite (Hall c Hin) in Hc. discriminate. }
  apply IH; simpl; [exact Hrep | exact Hset |].
  rewrite Htaken in Hall. now apply Forall_app in Hall.
Qed.

(** When the output of the child arrives within one run of the inner loop
    and the prompt is the tail of its last chunk, the drain returns what
    was written before the prompt, with the prompt kept or removed as
    [trim_prompt] says. *)
Lemma read_until_prompt_prompt_at_chunk_end
    fuel g chunks (body : string) rest out err trim :
  fst (is_alive g) = true ->
  Forall (fun c => c <> "" /\ ends_with_prompt c = false) chunks ->
  out_pending (process g) = (chunks ++ (body ++ GDB_PROMPT)%string :: rest)%list ->
  (rest = [] \/ exists r, rest = "" :: r) ->
  exists d,
    read_until_prompt (S (S fuel)) g out err trim = Some d
    /\ d_hit_prompt d = true
    /\ d_output d = fold_left String.append chunks out
                     ++ (if trim then body else body ++ GDB_PROMPT).
Proof.
  intros Halive Hplain Hpending Hrest.
  unfold read_until_prompt. cbn [read_until_prompt_loop].
  rewrite (is_alive_pair g), Halive. cbn [andb negb set_process process].
  destruct (drain_err _ err) as [err_rest err'].
  cbn [out_pending set_err_pending]. rewrite polled_out_pending, Hpending.
  rewrite (drain_out_plain trim chunks _ out false Hplain).
  cbn [drain_out].
  assert (Hlen : (String.length (body ++ GDB_PROMPT) =? 0)%nat = false).
  { apply Nat.eqb_neq. rewrite length_append. simpl. lia. }
  rewrite Hlen, string_ends_with_append.
  unfold strlen. rewrite erase_suffix.
  set (out' := fold_left String.append chunks out
               ++ (if trim then body else body ++ GDB_PROMPT)).
  assert (Hd : exists out_rest,
             drain_out trim rest out' true = (out_rest, out', true)).
  { destruct Hrest as [-> | [r ->]]; [now exists [] | now exists r]. }
  destruct Hd as [out_rest ->].
  match goal with |- context [is_alive ?h] => rewrite (is_alive_pair h) end.
  rewrite andb_false_r. eexists. split; [reflexivity |]. split; reflexivity.
Qed.

(** ** C6: the status is recomputed lazily *)

Lemma is_alive_insert_line line g :
  fst (is_alive (set_process (insert_line line (process g)) g)) = fst (is_alive g).
Proof.
  rewrite !is_alive_value. unfold exited_poll. simpl.
  destruct (exit_reports (process g)); reflexivity.
Qed.

(** C6, as the code has it.  [execute] sets the dirty flag exactly when it
    passes a command on: the session is alive and the line is not null;
    otherwise it leaves the flag as it is.  A call of [is_running_program]
    that finds the flag set recomputes: it sends the status query, drains
    the answer, and returns and caches whether that answer lacks "not being
    run", with the flag cleared; so when the child answers with a text and
    its prompt, the boolean returned is computed from that text, whatever
    was cached.  And from a call of [is_running_program] until the next
    [execute] any number of further calls return the same cached boolean
    and leave the session exactly as it is, so they send nothing. *)
Theorem running_status_lazily_recomputed :
  (forall g line,
      running_program_flag (execute line g)
      = running_program_flag g
        || match line with Some _ => fst (is_alive g) | None => false end)
  /\ (forall fuel g,
        running_program_flag g = true ->
        is_running_program fuel g
        = match read_until_prompt fuel
                  (set_process (insert_line GDB_PROGRAM_STATUS (process g)) g)
                  "" "" true with
          | Some d =>
              let running := negb (string_contains (d_output d) "not being run") in
              Some (running,
                    set_running_program_flag false
                      (set_running_program running (d_gdb d)))
          | None => None
          end)
  /\ (forall fuel g chunks (body : string) rest,
        running_program_flag g = true ->
        fst (is_alive g) = true ->
        Forall (fun c => c <> "" /\ ends_with_prompt c = false) chunks ->
        out_pending (process g) = (chunks ++ (body ++ GDB_PROMPT)%string :: rest)%list ->
        (rest = [] \/ exists r, rest = "" :: r) ->
        let answer := fold_left String.append chunks "" ++ body in
        let running := negb (string_contains answer "not being run") in
        exists g',
          is_running_program (S (S fuel)) g = Some (running, g')
          /\ running_program g' = running
          /\ running_program_flag g' = false
          /\ sent (process g') = sent (process g) ++ GDB_PROGRAM_STATUS ++ Str.endl)
  /\ (forall fuel g b g',
        is_running_program fuel g = Some (b, g') ->
        running_program_flag g' = false
        /\ running_program g' = b
        /\ (running_program_flag g = true ->
            sent (process g') = sent (process g) ++ GDB_PROGRAM_STATUS ++ Str.endl)
        /\ (running_program_flag g = false -> g' = g /\ b = running_program g)
        /\ (forall fuel', is_running_program fuel' g' = Some (b, g'))
        /\ (forall n fuel', query_status n fuel' g' = Some (repeat b n, g'))).
Proof.
  split; [| split; [| split]].
  - intros g line. unfold execute. destruct (is_alive g) as [alive g1] eqn:Halive.
    pose proof (is_alive_state g) as Hg1. rewrite Halive in Hg1. simpl in Hg1. subst g1.
    simpl. destruct line as [l |]; [destruct alive |]; simpl;
      now rewrite ?orb_true_r, ?orb_false_r.
  - intros fuel g Hflag. unfold is_running_program, get_execution_output.
    rewrite Hflag. destruct (read_until_prompt _ _ _ _ _); reflexivity.
  - intros fuel g chunks body rest Hflag Halive Hplain Hpending Hrest answer running.
    set (g1 := set_process (insert_line GDB_PROGRAM_STATUS (process g)) g).
    destruct (read_until_prompt_prompt_at_chunk_end fuel g1 chunks body rest "" "" true)
      as (d & Hd & _ & Hout); try assumption.
    { unfold g1. now rewrite is_alive_insert_line. }
    pose proof (read_until_prompt_frame _ _ _ _ _ _ Hd) as (Hsent & _).
    unfold is_running_program, get_execution_output. rewrite Hflag. fold g1.
    rewrite Hd, Hout. fold answer. fold running.
    eexists. split; [reflexivity |]. simpl. rewrite Hsent.
    repeat split.
  - intros fuel g b g' H.
    destruct (is_running_program_result _ _ _ _ H) as [Hclean Hval].
    split; [exact Hclean |]. split; [exact Hval |]. split; [| split; [| split]].
    + intros Hdirty. now destruct (is_running_program_dirty _ _ _ _ Hdirty H).
    + intros Hnot. rewrite (is_running_program_clean _ _ Hnot) in H.
      injection H as <- <-. split; reflexivity.
    + intros fuel'. rewrite (is_running_program_clean _ _ Hclean), Hval. reflexivity.
    + intros n fuel'. rewrite (query_status_clean _ _ _ Hclean), Hval. reflexivity.
Qed.

(** A program was running (the cached status is true); the user kills it,
    which sets the flag, and gdb answers the status query with "not being
    run": the status returned is false, not the cached one, and it stays
    false, with nothing more sent, until the next [execute]. *)
Lemma running_status_lazily_recomputed_witness :
  let g := mk_GDB (mk_pstream "" [] (false, false)
                     ["[Inferior 1 (process 7) killed]" ++ Str.endl ++ GDB_PROMPT;
                      ""; idle_answer] [])
                  false true in
  let g1 := execute (Some "kill") g in
  running_program g1 = true
  /\ running_program_flag g1 = true
  /\ exists d g',
      read_until_prompt 2 g1 "" "" true = Some d
      /\ out_pending (process (d_gdb d)) = [idle_answer]
      /\ is_running_program 2 (d_gdb d) = Some (false, g')
      /\ sent (process g')
         = "kill" ++ Str.endl ++ GDB_PROGRAM_STATUS ++ Str.endl
      /\ is_running_program 0 g' = Some (false, g')
      /\ query_status 3 0 g' = Some ([false; false; false], g').
Proof.
  intros g g1.
  destruct running_status_lazily_recomputed as (Hset & _ & Hanswer & Hcached).
  split; [reflexivity |].
  split; [unfold g1; rewrite (Hset g (Some "kill")); reflexivity |].
  destruct (read_until_prompt 2 g1 "" "" true) as [d |] eqn:Hd;
    [| vm_compute in Hd; discriminate].
  assert (Hpend : out_pending (process (d_gdb d)) = [idle_answer])
    by (vm_compute in Hd; injection Hd as <-; reflexivity).
  assert (Hflag : running_program_flag (d_gdb d) = true)
    by (vm_compute in Hd; injection Hd as <-; reflexivity).
  assert (Halive : fst (is_alive (d_gdb d)) = true)
    by (vm_compute in Hd; injection Hd as <-; reflexivity).
  assert (Hsent : sent (process (d_gdb d)) = "kill" ++ Str.endl)
    by (vm_compute in Hd; injection Hd as <-; reflexivity).
  destruct (Hanswer 0%nat (d_gdb d) []
              ("The program being debugged is not being run." ++ Str.endl) []
              Hflag Halive (List.Forall_nil _) Hpend (or_introl eq_refl))
    as (g' & Hrun & _ & _ & Hsent').
  destruct (Hcached 2%nat (d_gdb d) false g' Hrun) as (_ & _ & _ & _ & Hagain & Hmany).
  exists d, g'. split; [reflexivity |]. split; [exact Hpend |].
  split; [exact Hrun |]. split; [now rewrite Hsent', Hsent |].
  split; [exact (Hagain 0%nat) | exact (Hmany 3%nat 0%nat)].
Defined.

(** C6, as stated, fails: this [execute] of a command does not set the
    flag, because the session is not alive; the status is not recomputed
    by the next [is_running_program], which returns the cached value and
    sends nothing. *)
Lemma execute_on_dead_session_leaves_flag_clear :
  let g := session [] (true, true) [] [] in
  let g1 := execute (Some "run") g in
  fst (is_alive g) = false
  /\ running_program_flag g = false
  /\ running_program_flag g1 = false
  /\ is_running_program 1 g1 = Some (false, g1)
  /\ sent (process g1) = "".
Proof. repeat split. Qed.

(** ** C2: the prompt is looked for in each chunk *)

(** C2: the prompt flag an inner loop leaves is set exactly when it was set
    before or one of the chunks this run read ends with the prompt, whatever
    the accumulated buffer is.  So for the two chunks "(gd" and "b) ",
    whose concatenation is the prompt, split across the boundary: read in
    one run or in two, the flag stays clear although the accumulated buffer
    ends with the prompt; with the child alive the drain never returns;
    and when the child exits later, the drain returns because of the exit,
    the flag clear and the prompt still in the output. *)
Theorem prompt_split_across_chunks_not_detected :
  (forall trim pending out hit,
     snd (drain_out trim pending out hit)
     = hit || existsb ends_with_prompt (burst pending))
  /\ exists c1 c2 : string,
      c1 <> "" /\ c2 <> ""
      /\ (String.length c2 < String.length GDB_PROMPT)%nat
      /\ c1 ++ c2 = GDB_PROMPT
      /\ string_ends_with (c1 ++ c2) GDB_PROMPT = true
      /\ (forall trim out,
            drain_out trim [c1; c2] out false = ([], (out ++ c1) ++ c2, false))
      /\ (forall fuel trim,
            read_until_prompt fuel (session [] (false, false) [c1; ""; c2] [])
                              "" "" trim = None)
      /\ (forall trim,
            read_until_prompt 4
              (session [(false, false); (false, false); (false, false)]
                       (true, true) [c1; ""; c2] []) "" "" trim
            = Some (mk_Drained (session [] (true, true) [] []) (c1 ++ c2) "" false)).
Proof.
  split; [intros; apply drain_out_hit |].
  exists "(gd", "b) ".
  split; [discriminate |]. split; [discriminate |].
  split; [simpl; lia |]. split; [reflexivity |]. split; [reflexivity |].
  split; [reflexivity |]. split.
  - intros fuel trim. apply read_until_prompt_loop_spins; try reflexivity.
    simpl. repeat constructor.
  - intros []; reflexivity.
Qed.

(** ** C1: the frame a drain returns *)

(** C1 at an input on which the code misses it.  The child answers
    [print x] with a line and its prompt, and the two reads cut the answer
    inside the prompt.  While the child waits at its prompt the drain that
    follows [execute] never returns; and if the child exits later, the
    drain returns the answer with the prompt still at its end although
    [trim_prompt] is set, the prompt flag clear. *)
Theorem drain_after_execute_misses_split_prompt :
  let body := "$1 = 42" ++ Str.endl in
  let c1 := body ++ "(gd" in
  let c2 := "b) " in
  let waiting := session [] (false, false) [c1; ""; c2] [] in
  let exiting := session (repeat (false, false) 4) (true, true) [c1; ""; c2] [] in
  c1 ++ c2 = body ++ GDB_PROMPT
  /\ (forall fuel trim,
        read_until_prompt fuel (execute (Some "print x") waiting) "" "" trim = None)
  /\ (exists g',
        read_until_prompt 4 (execute (Some "print x") exiting) "" "" true
        = Some (mk_Drained g' (body ++ GDB_PROMPT) "" false)).
Proof.
  intros body c1 c2 waiting exiting.
  split; [reflexivity |]. split.
  - intros fuel trim. apply read_until_prompt_loop_spins; try reflexivity.
    simpl. repeat constructor.
  - eexists. reflexivity.
Qed.

(** ** C9: the status event *)

Lemma GetTopWindow_queued c : queued (snd (GetTopWindow c)) = queued c.
Proof. unfold GetTopWindow. destruct (window_reports c); reflexivity. Qed.

Lemma GetTopWindow_cin c : cin (snd (GetTopWindow c)) = cin c.
Proof. unfold GetTopWindow. destruct (window_reports c); reflexivity. Qed.

Lemma GetTopWindow_history c : history (snd (GetTopWindow c)) = history c.
Proof. unfold GetTopWindow. destruct (window_reports c); reflexivity. Qed.

(** *** The drain returns when the child exits *)

Lemma all_exited_is_final reports settled :
  forallb exited reports && exited settled = true ->
  exit_is_final reports settled = true.
Proof.
  induction reports as [| r rs IH]; simpl; [tauto |].
  intros H. apply andb_prop in H as [H1 H2]. apply andb_prop in H1 as [Hr Hrs].
  rewrite Hr, Hrs, H2. reflexivity.
Qed.

Lemma exit_is_final_tail r rs settled :
  exit_is_final (r :: rs) settled = true -> exit_is_final rs settled = true.
Proof.
  simpl. destruct (exited r); [apply all_exited_is_final | tauto].
Qed.

(** Whatever the child prints, a drain returns once the fuel covers the
    polls up to the exit of the child, and what is left of the script is
    again one of a child that exits for good. *)
Lemma read_until_prompt_loop_returns (fuel : nat) :
  forall hit g out err trim,
    exit_is_final (exit_reports (process g)) (exit_settled (process g)) = true ->
    (length (exit_reports (process g)) < fuel)%nat ->
    exists d,
      read_until_prompt_loop fuel hit g out err trim = Some d
      /\ exit_is_final (exit_reports (process (d_gdb d)))
                       (exit_settled (process (d_gdb d))) = true
      /\ (length (exit_reports (process (d_gdb d)))
          <= length (exit_reports (process g)))%nat.
Proof.
  induction fuel as [| fuel IH]; intros hit g out err trim Hfinal Hfuel; [lia |].
  cbn [read_until_prompt_loop].
  destruct (exit_reports (process g)) as [| r rs] eqn:Hrep.
  - rewrite (is_alive_settled g Hrep). fold (exited (exit_settled (process g))).
    simpl in Hfinal. rewrite Hfinal. simpl.
    eexists. split; [reflexivity |]. simpl. rewrite Hrep. simpl. split; [exact Hfinal | lia].
  - pose proof (exit_is_final_tail _ _ _ Hfinal) as Htail.
    unfold is_alive, exited_poll. rewrite Hrep. destruct r as [o e].
    destruct (negb (o || e) && negb hit).
    + destruct (drain_err (err_pending _) err) as [err_rest err'].
      destruct (drain_out trim _ out hit) as [[out_rest out'] hit'].
      destruct (IH hit' (set_process
                           (set_out_pending out_rest
                              (set_err_pending err_rest
                                 (process (set_process (set_exit_reports rs (process g)) g))))
                           (set_process (set_exit_reports rs (process g)) g))
                   out' err' trim) as (d & Hd & Hd_final & Hd_len).
      * exact Htail.
      * simpl in *. lia.
      * exists d. split; [exact Hd |]. split; [exact Hd_final |].
        simpl in *. lia.
    + eexists. split; [reflexivity |]. simpl. split; [exact Htail | lia].
Qed.

Lemma update_console_and_gui_returns fuel g c :
  exit_is_final (exit_reports (process g)) (exit_settled (process g)) = true ->
  (length (exit_reports (process g)) < fuel)%nat ->
  exists g' c', update_console_and_gui fuel g c = Some (g', c').
Proof.
  intros Hfinal Hfuel. unfold update_console_and_gui, read_until_prompt.
  destruct (read_until_prompt_loop_returns fuel false g (cout c) (cerr c) true
              Hfinal Hfuel) as (d & -> & Hd_final & Hd_len).
  assert (Hrun : exists running g1,
             is_running_program fuel (d_gdb d) = Some (running, g1)).
  { unfold is_running_program, get_execution_output, read_until_prompt.
    destruct (running_program_flag (d_gdb d)); [| eauto].
    destruct (read_until_prompt_loop_returns fuel false
                (set_process (insert_line GDB_PROGRAM_STATUS (process (d_gdb d))) (d_gdb d))
                "" "" true) as (d' & -> & _); [exact Hd_final | simpl; lia | eauto]. }
  destruct Hrun as (running & g1 & ->).
  destruct (GetTopWindow _) as [[] c2]; eauto.
Qed.

(** C9, as the code has it: an [update_console_and_gui] returns once the
    fuel covers the polls up to the exit of the child, and whenever it
    returns, it has built after its drain one status event, whose string is
    the running text when [is_running_program] answers true and the idle
    text otherwise, and has queued it only if the application has a top
    window at that moment; without one nothing is queued.  The queue is the
    only thing of the GUI the call writes to: the input and the history are
    as before. *)
Theorem update_console_and_gui_status_event :
  (forall fuel g c,
      exit_is_final (exit_reports (process g)) (exit_settled (process g)) = true ->
      (length (exit_reports (process g)) < fuel)%nat ->
      exists g' c', update_console_and_gui fuel g c = Some (g', c'))
  /\ (forall fuel g g' c c',
        update_console_and_gui fuel g c = Some (g', c') ->
        exists d running,
          read_until_prompt fuel g (cout c) (cerr c) true = Some d
          /\ is_running_program fuel (d_gdb d) = Some (running, g')
          /\ queued c'
             = (queued c ++
                (if fst (GetTopWindow c)
                 then [if running then GDB_STATUS_RUNNING else GDB_STATUS_IDLE]
                 else []))%list
          /\ cin c' = cin c
          /\ history c' = history c).
Proof.
  split; [exact update_console_and_gui_returns |].
  intros fuel g g' c c'.
  unfold update_console_and_gui.
  destruct (read_until_prompt fuel g (cout c) (cerr c) true) as [d |] eqn:Hd;
    [| discriminate].
  destruct (is_running_program fuel (d_gdb d)) as [[running g1] |] eqn:Hrun;
    [| discriminate].
  set (c1 := set_cerr (d_error d) (set_cout (d_output d) c)).
  assert (Hw : fst (GetTopWindow c1) = fst (GetTopWindow c)).
  { unfold GetTopWindow, c1. simpl. destruct (window_reports c); reflexivity. }
  pose proof (GetTopWindow_queued c1) as Hq.
  pose proof (GetTopWindow_cin c1) as Hc.
  pose proof (GetTopWindow_history c1) as Hh.
  destruct (GetTopWindow c1) as [window c2]. simpl in Hw, Hq, Hc, Hh. subst window.
  intros H. exists d, running. split; [reflexivity |].
  destruct (fst (GetTopWindow c)); injection H as <- <-;
    (split; [exact Hrun |]); simpl; rewrite ?Hq, ?Hc, ?Hh; simpl.
  - repeat split.
  - rewrite app_nil_r. repeat split.
Qed.

(** A cycle on a child that answers with its prompt and one on a child
    that exits: both return, with the idle and the running text queued. *)
Lemma update_console_and_gui_status_event_witness :
  let g := execute (Some "help")
             (session [] (false, false) ["List of commands" ++ GDB_PROMPT; ""; idle_answer] []) in
  let h := execute (Some "quit") (session [(false, false)] (true, true) [] []) in
  (exists g' c',
      update_console_and_gui 2 g (console [] [true]) = Some (g', c')
      /\ queued c' = [GDB_STATUS_IDLE])
  /\ (exit_is_final (exit_reports (process h)) (exit_settled (process h)) = true
      /\ exists h' c',
          update_console_and_gui 1 h (console [] [true]) = Some (h', c')).
Proof.
  intros g h. split.
  - eexists. eexists. split; [reflexivity |].
    destruct (proj2 update_console_and_gui_status_event 2%nat g _ (console [] [true]) _
                eq_refl)
      as (d & running & Hd & Hrun & Hq & _).
    rewrite Hq.
    injection Hd as <-. injection Hrun as <-. reflexivity.
  - split; [reflexivity |].
    apply (proj1 update_console_and_gui_status_event 1%nat h (console [] [true]));
      [reflexivity | simpl; lia].
Defined.

(** C9, as stated, fails: a command is executed and its output drained
    while the GUI thread has not created the top window yet; the cycle
    ends with nothing queued. *)
Lemma status_event_not_queued_without_window :
  let g := execute (Some "help")
             (session [] (false, false) ["List of commands" ++ GDB_PROMPT; ""; idle_answer] []) in
  exists g' c',
    update_console_and_gui 2 g (console [] [false]) = Some (g', c')
    /\ queued c' = [].
Proof. intros g. eexists. eexists. split; reflexivity. Qed.

(** ** C8: end of input *)

Lemma gone_not_alive g :
  gone (process g) = true ->
  fst (is_alive g) = false /\ gone (process (snd (is_alive g))) = true.
Proof.
  destruct g as [[s reports [so se] outp errp] flag run].
  unfold gone, is_alive, exited_poll, exited. simpl.
  destruct reports as [| [o e] rs]; simpl.
  - intros H. rewrite H. split; reflexivity.
  - intros H. apply andb_prop in H as [H1 H2]. apply andb_prop in H1 as [H0 H1].
    rewrite H0, H1, H2. split; reflexivity.
Qed.

(** At a session whose child is gone the drain returns at once. *)
Lemma read_until_prompt_gone fuel g out err trim :
  gone (process g) = true ->
  read_until_prompt (S fuel) g out err trim
  = Some (mk_Drained (snd (is_alive g)) out err false).
Proof.
  intros H. destruct (gone_not_alive g H) as [Hdead _].
  unfold read_until_prompt. simpl.
  rewrite (is_alive_pair g), Hdead, <- is_alive_state. reflexivity.
Qed.

(** When the child exits for good without ending a chunk with the prompt,
    the drain returns, given fuel for the polls up to the exit; it returns
    because of the exit, and the child is gone. *)
Lemma read_until_prompt_loop_to_exit (fuel : nat) :
  forall g out err trim,
    Forall (fun c => ends_with_prompt c = false) (out_pending (process g)) ->
    exit_is_final (exit_reports (process g)) (exit_settled (process g)) = true ->
    (length (exit_reports (process g)) < fuel)%nat ->
    exists d,
      read_until_prompt_loop fuel false g out err trim = Some d
      /\ d_hit_prompt d = false
      /\ gone (process (d_gdb d)) = true.
Proof.
  induction fuel as [| fuel IH]; intros g out err trim Hall Hfinal Hfuel; [lia |].
  cbn [read_until_prompt_loop].
  destruct (exit_reports (process g)) as [| r rs] eqn:Hrep.
  - (* the settled answer is the exit *)
    simpl in Hfinal.
    rewrite (is_alive_settled g Hrep). fold (exited (exit_settled (process g))).
    rewrite Hfinal. simpl. eexists. split; [reflexivity |]. split; [reflexivity |].
    simpl. unfold gone. now rewrite Hrep, Hfinal.
  - unfold is_alive, exited_poll. rewrite Hrep. destruct r as [o e].
    simpl in Hfinal. unfold exited at 1 in Hfinal. simpl in Hfinal.
    destruct (o || e) eqn:Hoe; simpl.
    + eexists. split; [reflexivity |]. split; [reflexivity |].
      simpl. unfold gone. simpl. exact Hfinal.
    + destruct (drain_err (err_pending (process g)) err) as [err_rest err'].
      pose proof (drain_out_hit trim (out_pending (process g)) out false) as Hhit.
      destruct (drain_out_rest trim (out_pending (process g)) out false)
        as [taken Htaken].
      destruct (drain_out trim (out_pending (process g)) out false)
        as [[out_rest out'] hit'].
      simpl in Hhit, Htaken.
      assert (hit' = false) as ->.
      { rewrite Hhit. apply not_true_is_false. intros Hex.
        apply existsb_exists in Hex as (c & Hin & Hc).
        apply burst_incl in Hin. rewrite List.Forall_forall in Hall.
        rewrite (Hall c Hin) in Hc. discriminate. }
      apply IH; simpl.
      * rewrite Htaken in Hall. now apply Forall_app in Hall.
      * exact Hfinal.
      * simpl in Hfuel. lia.
Qed.

Lemma gone_insert_line line p : gone (insert_line line p) = gone p.
Proof. reflexivity. Qed.

(** The status query at a session whose child is gone: the query is sent,
    the drain returns at once with no text, and the answer is [true]
    because the empty text does not contain "not being run". *)
Lemma is_running_program_gone fuel g :
  running_program_flag g = true ->
  gone (process g) = true ->
  exists g',
    is_running_program (S fuel) g = Some (true, g')
    /\ sent (process g') = sent (process g) ++ GDB_PROGRAM_STATUS ++ Str.endl
    /\ gone (process g') = true.
Proof.
  intros Hflag Hgone.
  unfold is_running_program, get_execution_output. rewrite Hflag.
  set (g1 := set_process (insert_line GDB_PROGRAM_STATUS (process g)) g).
  assert (Hgone1 : gone (process g1) = true) by exact Hgone.
  rewrite (read_until_prompt_gone fuel g1 "" "" true Hgone1).
  destruct (gone_not_alive g1 Hgone1) as [_ Hgone2].
  eexists. split; [reflexivity |]. simpl.
  rewrite is_alive_state. simpl. rewrite polled_sent.
  split; [reflexivity |].
  rewrite is_alive_state in Hgone2. exact Hgone2.
Qed.

(** C8: when [readline] finds the end of the input with nothing typed, the
    pass of the loop is: print and [execute] the quit command once, one
    [update_console_and_gui] (its drain and its status event), and the loop
    is left.  If the child is still alive when the command is passed on
    and then exits for good without printing another prompt, the loop
    returns as soon as the fuel covers the polls up to the exit; the one
    quit command (and after it the status query of the update) is what was
    passed to the stream of the child, and [is_alive] is false from then
    on. *)
Theorem console_loop_end_of_input (fuel : nat) (g : GDB) (c : Console) :
  cin c = [] ->
  fst (is_alive g) = true ->
  console_loop (S fuel) g c
  = update_console_and_gui fuel
      (execute (Some GDB_QUIT) (snd (is_alive g)))
      (set_cout (cout c ++ GDB_QUIT ++ Str.endl) c)
  /\ (fst (is_alive (snd (is_alive g))) = true ->
      Forall (fun chunk => ends_with_prompt chunk = false) (out_pending (process g)) ->
      exit_is_final (exit_reports (process g)) (exit_settled (process g)) = true ->
      (length (exit_reports (process g)) <= fuel)%nat ->
      exists g' c',
        console_loop (S fuel) g c = Some (g', c')
        /\ sent (process g')
           = sent (process g) ++ (GDB_QUIT ++ Str.endl)
                              ++ (GDB_PROGRAM_STATUS ++ Str.endl)
        /\ fst (is_alive g') = false
        /\ gone (process g') = true
        /\ cin c' = []
        /\ history c' = history c).
Proof.
  intros Heof Halive.
  assert (Hpass : console_loop (S fuel) g c
                  = update_console_and_gui fuel
                      (execute (Some GDB_QUIT) (snd (is_alive g)))
                      (set_cout (cout c ++ GDB_QUIT ++ Str.endl) c)).
  { cbn [console_loop]. rewrite (is_alive_pair g), Halive.
    unfold readline. rewrite Heof. rewrite <- is_alive_state. reflexivity. }
  split; [exact Hpass |].
  intros Halive2 Hquiet Hfinal Hfuel. rewrite Hpass.
  set (g1 := snd (is_alive g)) in *.
  set (c2 := set_cout (cout c ++ GDB_QUIT ++ Str.endl) c).
  (* the session after [execute] *)
  set (g2 := execute (Some GDB_QUIT) g1).
  assert (Hg2 : g2 = set_running_program_flag true
                       (set_process (insert_line GDB_QUIT (polled (polled (process g)))) g)).
  { unfold g2, execute. rewrite (is_alive_pair g1), Halive2.
    unfold g1. rewrite is_alive_state. reflexivity. }
  (* two reports were consumed, both of a live child *)
  assert (Hscript : exists rs, exit_reports (process g) = (false, false) :: (false, false) :: rs).
  { unfold g1 in Halive2. rewrite is_alive_state in Halive2.
    rewrite is_alive_value in Halive, Halive2. simpl in Halive2.
    destruct g as [[s reports [so se] outp errp] flag run].
    unfold exited_poll, polled, exited_poll in *. simpl in *.
    destruct reports as [| [o e] [| [o2 e2] rs]]; simpl in *.
    - unfold exited in Hfinal. simpl in Hfinal. rewrite Hfinal in Halive. discriminate.
    - unfold exited in Hfinal. simpl in Hfinal.
      destruct (o || e); [discriminate |]. rewrite Hfinal in Halive2. discriminate.
    - destruct o, e, o2, e2; try discriminate. now exists rs. }
  destruct Hscript as [rs Hrs].
  assert (Hrep2 : exit_reports (process g2) = rs).
  { rewrite Hg2. simpl. rewrite !polled_exit_reports, Hrs. reflexivity. }
  assert (Hset2 : exit_settled (process g2) = exit_settled (process g)).
  { rewrite Hg2. simpl. now rewrite !polled_exit_settled. }
  assert (Hout2 : out_pending (process g2) = out_pending (process g)).
  { rewrite Hg2. simpl. now rewrite !polled_out_pending. }
  assert (Hsent2 : sent (process g2) = sent (process g) ++ GDB_QUIT ++ Str.endl).
  { rewrite Hg2. simpl. now rewrite !polled_sent. }
  assert (Hflag2 : running_program_flag g2 = true) by now rewrite Hg2.
  (* the drain ends with the exit of the child *)
  destruct (read_until_prompt_loop_to_exit fuel g2 (cout c2) (cerr c2) true)
    as (d & Hd & _ & Hgone).
  { now rewrite Hout2. }
  { rewrite Hrep2, Hset2. rewrite Hrs in Hfinal. exact Hfinal. }
  { rewrite Hrep2. rewrite Hrs in Hfuel. simpl in Hfuel. lia. }
  destruct (read_until_prompt_loop_frame _ _ _ _ _ _ _ Hd) as (Hsent_d & Hflag_d & _).
  (* the status query meets a child that is gone *)
  destruct fuel as [| fuel']; [rewrite Hrs in Hfuel; simpl in Hfuel; lia |].
  destruct (is_running_program_gone fuel' (d_gdb d)) as (g' & Hrun & Hsent' & Hgone');
    [congruence | exact Hgone |].
  unfold update_console_and_gui. fold c2. unfold read_until_prompt.
  rewrite Hd, Hrun.
  set (c3 := set_cerr (d_error d) (set_cout (d_output d) c2)).
  pose proof (GetTopWindow_cin c3) as Hcin.
  pose proof (GetTopWindow_history c3) as Hhist.
  destruct (GetTopWindow c3) as [window c4]. simpl in Hcin, Hhist.
  assert (Hsent : sent (process g')
                  = sent (process g) ++ (GDB_QUIT ++ Str.endl)
                                     ++ (GDB_PROGRAM_STATUS ++ Str.endl)).
  { rewrite Hsent', Hsent_d, Hsent2. now rewrite append_assoc. }
  destruct (gone_not_alive g' Hgone') as [Hdead _].
  destruct window; eexists; eexists; (split; [reflexivity |]);
    simpl; rewrite ?Hcin, ?Hhist; repeat split; assumption.
Qed.

Lemma console_loop_end_of_input_witness :
  let g := session (repeat (false, false) 3) (true, true) [] [] in
  let c := console [] [true] in
  cin c = []
  /\ fst (is_alive g) = true
  /\ exists g' c',
      console_loop 4 g c = Some (g', c')
      /\ sent (process g') = "quit" ++ Str.endl ++ "info program" ++ Str.endl
      /\ fst (is_alive g') = false.
Proof.
  intros g c.
  destruct (console_loop_end_of_input 3 g c eq_refl eq_refl) as [_ Hexit].
  destruct (Hexit eq_refl (List.Forall_nil _) eq_refl (le_n 3))
    as (g' & c' & Hloop & Hsent & Hdead & _).
  split; [reflexivity |]. split; [reflexivity |].
  exists g', c'. split; [exact Hloop |]. split; [exact Hsent | exact Hdead].
Defined.

(** ** C4: merging a stack frame into the stack image *)

Module StackPanelFacts.
Import StackPanel.

Local Open Scope Z_scope.

Lemma long_wrap_small z : - 2 ^ 63 <= z < 2 ^ 63 -> long_wrap z = z.
Proof. intros H. unfold long_wrap. rewrite Z.mod_small; lia. Qed.

Lemma array_get_set_same (a : list Z) i v :
  0 <= i < Z.of_nat (length a) -> array_get (array_set a i v) i = v.
Proof.
  intros H. unfold array_get, array_set.
  destruct (Z.ltb_spec i 0); [lia |].
  rewrite list_lookup_insert_eq; [reflexivity | lia].
Qed.

Lemma array_get_set_other (a : list Z) i j v :
  0 <= i -> 0 <= j -> i <> j -> array_get (array_set a i v) j = array_get a j.
Proof.
  intros Hi Hj Hne. unfold array_get, array_set.
  destruct (Z.ltb_spec i 0); [lia |]. destruct (Z.ltb_spec j 0); [lia |].
  rewrite list_lookup_insert_ne; [reflexivity | lia].
Qed.

Lemma array_set_length (a : list Z) i v : length (array_set a i v) = length a.
Proof. unfold array_set. destruct (i <? 0); [reflexivity | apply length_insert]. Qed.

Section CopyLoop.
Variables (mem old0 : list Z).
Variables (ft fb st sb nt : Z).
Hypothesis Hframe : fb - ft < 2 ^ 63.
Hypothesis Hold : sb - st < 2 ^ 63.
Hypothesis Hnt : - 2 ^ 63 <= nt.

Lemma copy_loop_spec (n : nat) :
  forall index aliased new_stack old_stack,
    0 <= index ->
    index + Z.of_nat n <= Z.of_nat (length new_stack) ->
    nt + index + Z.of_nat n <= 2 ^ 63 ->
    old_view old0 nt st aliased index new_stack old_stack ->
    let r := copy_loop mem ft fb st sb nt n index aliased new_stack old_stack in
    length r = length new_stack
    /\ forall j, 0 <= j ->
         array_get r j =
         if (index <=? j) && (j <? index + Z.of_nat n)
         then merged mem old0 ft fb st sb (nt + j)
         else array_get new_stack j.
Proof.
  induction n as [| n IH]; intros index aliased new_stack old_stack Hi Hlen Hmax Hview r.
  - subst r. simpl. split; [reflexivity |]. intros j Hj.
    destruct (Z.leb_spec index j), (Z.ltb_spec j (index + Z.of_nat 0)); simpl;
      try reflexivity; lia.
  - subst r. cbn [copy_loop].
    set (address := ladd nt index).
    assert (Haddr : address = nt + index).
    { unfold address, ladd. apply long_wrap_small. lia. }
    set (value := if (address >=? ft) && (address <? fb)
                  then array_get mem (lsub address ft)
                  else if (address >=? st) && (address <? sb)
                  then array_get old_stack (lsub address st) else 0).
    assert (Hread : array_get old_stack (nt + index - st)
                    = array_get old0 (nt + index - st)).
    { destruct aliased; simpl in Hview.
      - destruct Hview as (-> & Hst & Hkeep).
        replace (nt + index - st) with index by lia. apply Hkeep. lia.
      - now subst old_stack. }
    assert (Hvalue : value = merged mem old0 ft fb st sb (nt + index)).
    { unfold value, merged. rewrite Haddr, !Z.geb_leb.
      destruct (Z.leb_spec ft (nt + index)), (Z.ltb_spec (nt + index) fb); simpl;
        [unfold lsub; rewrite long_wrap_small by lia; reflexivity | | |];
        (destruct (Z.leb_spec st (nt + index)), (Z.ltb_spec (nt + index) sb);
         simpl; try reflexivity;
         unfold lsub; rewrite long_wrap_small by lia; exact Hread). }
    set (new_stack' := array_set new_stack index value).
    assert (Hlen' : length new_stack' = length new_stack)
      by apply array_set_length.
    destruct (IH (index + 1) aliased new_stack'
                 (if aliased then new_stack' else old_stack)) as [IHlen IHval].
    + lia.
    + rewrite Hlen'. lia.
    + lia.
    + destruct aliased; simpl in *.
      * destruct Hview as (_ & Hst & Hkeep). split; [reflexivity |].
        split; [exact Hst |]. intros j Hj. unfold new_stack'.
        rewrite array_get_set_other by lia. apply Hkeep. lia.
      * exact Hview.
    + split; [now rewrite IHlen |]. intros j Hj. rewrite (IHval j Hj).
      destruct (Z.leb_spec (index + 1) j), (Z.ltb_spec j (index + 1 + Z.of_nat n)),
               (Z.leb_spec index j), (Z.ltb_spec j (index + Z.of_nat (S n))); simpl;
        try reflexivity; try lia; unfold new_stack';
        first [ apply array_get_set_other; lia
              | assert (j = index) as -> by lia;
                rewrite array_get_set_same by lia; exact Hvalue ].
Qed.
End CopyLoop.

Lemma min_by_ltb a b : (if a <? b then a else b) = Z.min a b.
Proof. destruct (Z.ltb_spec a b); lia. Qed.

Lemma max_by_gtb a b : (if a >? b then a else b) = Z.max a b.
Proof. rewrite Z.gtb_ltb. destruct (Z.ltb_spec b a); lia. Qed.

(** C4: merging a frame into an existing image stores the union range
    [min of the tops, max of the bottoms); in the stored image a byte of the
    frame's range has the frame's value, a byte of the old range outside the
    frame's keeps its value, and a byte of neither is zero.  (The image and
    the frame hold as many values as their lengths say, the addresses fit a
    [long] and the size of the union fits the [int] counter of the loop.)
    In particular A into the empty image gives A, and then B gives
    [10, 25) with the values of A on [10, 15) and of B on [15, 25). *)
Theorem SetStackFrame_merges_union :
  (forall (p : GDBStackPanel) (f : StackFrame) (old mem : list Z),
      stack_global p = Some old ->
      memory f = Some mem ->
      Z.of_nat (length old) = stack_size p ->
      Z.of_nat (length mem) = memory_length f ->
      - 2 ^ 63 <= stack_top p -> stack_top p + stack_size p < 2 ^ 63 ->
      - 2 ^ 63 <= stack_pointer f -> stack_pointer f + memory_length f < 2 ^ 63 ->
      Z.max (stack_pointer f + memory_length f) (stack_top p + stack_size p)
      - Z.min (stack_pointer f) (stack_top p) <= INT_MAX ->
      let p' := SetStackFrame (Some f) p in
      let frame_top := stack_pointer f in
      let frame_bottom := stack_pointer f + memory_length f in
      let old_top := stack_top p in
      let old_bottom := stack_top p + stack_size p in
      stack_top p' = Z.min frame_top old_top
      /\ stack_top p' + stack_size p' = Z.max frame_bottom old_bottom
      /\ exists image,
          stack_global p' = Some image
          /\ Z.of_nat (length image) = stack_size p'
          /\ forall address,
              stack_top p' <= address < stack_top p' + stack_size p' ->
              let value := array_get image (address - stack_top p') in
              (frame_top <= address < frame_bottom ->
               value = array_get mem (address - frame_top))
              /\ (~ frame_top <= address < frame_bottom ->
                  old_top <= address < old_bottom ->
                  value = array_get old (address - old_top))
              /\ (~ frame_top <= address < frame_bottom ->
                  ~ old_top <= address < old_bottom ->
                  value = 0))
  /\ SetStackFrame (Some frame_A) empty_panel
     = mk_GDBStackPanel (Some [1; 2; 3; 4; 5; 6; 7; 8; 9; 10]) 10 10
  /\ SetStackFrame (Some frame_B) (SetStackFrame (Some frame_A) empty_panel)
     = mk_GDBStackPanel
         (Some [1; 2; 3; 4; 5; 100; 101; 102; 103; 104; 105; 106; 107; 108; 109])
         15 10.
Proof.
  split; [| split; reflexivity].
  intros p f old mem Hglobal Hmemory Hold Hmem Htop Hbot Hsp Hfb Hint
         p' frame_top frame_bottom old_top old_bottom.
  assert (Hsize : 0 <= stack_size p) by lia.
  assert (Hmlen : 0 <= memory_length f) by lia.
  unfold INT_MAX in Hint.
  assert (Hfbot : ladd (stack_pointer f) (memory_length f) = frame_bottom)
    by (apply long_wrap_small; lia).
  assert (Hobot : ladd (stack_top p) (stack_size p) = old_bottom)
    by (apply long_wrap_small; lia).
  subst p'. unfold SetStackFrame. rewrite Hmemory, Hglobal.
  rewrite !Hfbot, !Hobot. fold frame_top old_top.
  rewrite !(min_by_ltb frame_top old_top), !(max_by_gtb frame_bottom old_bottom).
  set (new_top := Z.min frame_top old_top).
  set (new_bottom := Z.max frame_bottom old_bottom).
  assert (Hnew : lsub new_bottom new_top = new_bottom - new_top).
  { unfold lsub. apply long_wrap_small. subst new_top new_bottom. lia. }
  rewrite Hnew. cbn [stack_top stack_size stack_global].
  split; [reflexivity |]. split; [lia |].
  set (aliased := (new_top =? old_top) && (new_bottom =? old_bottom)).
  set (new_stack := if aliased then old else malloc (new_bottom - new_top)).
  assert (Hnlen : Z.of_nat (length new_stack) = new_bottom - new_top).
  { unfold new_stack, aliased.
    destruct (Z.eqb_spec new_top old_top), (Z.eqb_spec new_bottom old_bottom);
      simpl; unfold malloc; rewrite ?repeat_length; try lia. }
  destruct (copy_loop_spec mem old frame_top frame_bottom old_top old_bottom new_top)
    with (n := Z.to_nat (new_bottom - new_top)) (index := 0) (aliased := aliased)
         (new_stack := new_stack) (old_stack := old) as [Hlen Hval].
  - subst frame_top frame_bottom. lia.
  - subst old_top old_bottom. lia.
  - subst new_top frame_top old_top. lia.
  - lia.
  - lia.
  - subst new_top new_bottom frame_top frame_bottom old_top old_bottom. lia.
  - unfold old_view, new_stack, aliased.
    destruct (Z.eqb_spec new_top old_top), (Z.eqb_spec new_bottom old_bottom);
      simpl; auto.
  - eexists. split; [reflexivity |]. split; [lia |].
    intros address Haddr.
    rewrite Hval by lia.
    replace (new_top + (address - new_top)) with address by lia.
    destruct (Z.leb_spec 0 (address - new_top)); [| lia].
    destruct (Z.ltb_spec (address - new_top)
                         (0 + Z.of_nat (Z.to_nat (new_bottom - new_top)))); [| lia].
    simpl. unfold merged.
    destruct (Z.leb_spec frame_top address), (Z.ltb_spec address frame_bottom);
      destruct (Z.leb_spec old_top address), (Z.ltb_spec address old_bottom);
      simpl; repeat split; intros; try reflexivity; lia.
Qed.

Lemma SetStackFrame_merges_union_witness :
  let p := SetStackFrame (Some frame_A) empty_panel in
  let p' := SetStackFrame (Some frame_B) p in
  stack_top p' = 10
  /\ stack_top p' + stack_size p' = 25
  /\ exists image,
      stack_global p' = Some image
      /\ array_get image (12 - 10) = 3
      /\ array_get image (17 - 10) = 102.
Proof.
  intros p p'.
  destruct (proj1 SetStackFrame_merges_union p frame_B
              [1; 2; 3; 4; 5; 6; 7; 8; 9; 10]
              [100; 101; 102; 103; 104; 105; 106; 107; 108; 109]
              eq_refl eq_refl eq_refl eq_refl)
    as (Htop & Hbottom & image & Himage & _ & Hbytes);
    try (vm_compute; congruence).
  fold p' in Htop, Hbottom, Himage, Hbytes.
  split; [exact Htop |]. split; [exact Hbottom |].
  exists image. split; [exact Himage |].
  split.
  - destruct (Hbytes 12) as (_ & Hkept & _); [vm_compute; split; congruence |].
    change (12 - 10) with (12 - stack_top p').
    rewrite Hkept; [reflexivity | vm_compute; intros [H _]; now apply H
                    | vm_compute; split; congruence].
  - destruct (Hbytes 17) as (Hfresh & _); [vm_compute; split; congruence |].
    change (17 - 10) with (17 - stack_top p').
    rewrite Hfresh; [reflexivity | vm_compute; split; congruence].
Defined.

End StackPanelFacts.

(** * Further properties of the code *)

(** ** The string helpers *)

Section StringHelpers.

Implicit Types (s v b : string).

Lemma string_of_list_ascii_app (l1 l2 : list ascii) :
  string_of_list_ascii (l1 ++ l2)%list
  = string_of_list_ascii l1 ++ string_of_list_ascii l2.
Proof. induction l1 as [| a l1 IH]; simpl; [reflexivity | now rewrite IH]. Qed.

Lemma length_list_ascii_of_string s :
  length (list_ascii_of_string s) = String.length s.
Proof. induction s as [| a s IH]; simpl; [reflexivity | now rewrite IH]. Qed.

(** [Str.equal] is the test that the second range starts with the first. *)
Lemma equal_true_prefix (l1 : list ascii) :
  forall l2, Str.equal l1 l2 = true -> exists r, l2 = (l1 ++ r)%list.
Proof.
  induction l1 as [| a l1 IH]; intros l2 H; simpl in *; [now exists l2 |].
  destruct l2 as [| c l2]; [discriminate |].
  apply andb_prop in H as [Hac H]. apply Ascii.eqb_eq in Hac as ->.
  destruct (IH l2 H) as [r ->]. now exists r.
Qed.

Lemma prefix_true_iff v :
  forall s, String.prefix v s = true <-> exists b, s = v ++ b.
Proof.
  induction v as [| a v IH]; intros s.
  - split; [intros _; now exists s | intros _; now destruct s].
  - destruct s as [| c s]; simpl.
    + split; [discriminate | intros [b Hb]; discriminate].
    + destruct (ascii_dec a c) as [-> | Hne].
      * rewrite IH. split; intros [b Hb]; exists b; [now rewrite Hb | now injection Hb].
      * split; [discriminate | intros [b Hb]; injection Hb as Hac _; congruence].
Qed.

Lemma append_String_r s1 a s2 : s1 ++ String a s2 = (s1 ++ String a "") ++ s2.
Proof. induction s1 as [| c s1 IH]; simpl; [reflexivity | now rewrite IH]. Qed.

(** [find_from] answers the first position of an occurrence, counted from
    [pos], and [None] exactly when there is no occurrence. *)
Lemma find_from_spec v s :
  forall pos,
    match Str.find_from pos s v with
    | Some n =>
        exists a b, s = a ++ v ++ b /\ n = (pos + String.length a)%nat
                    /\ forall a' b', s = a' ++ v ++ b' ->
                                     (String.length a <= String.length a')%nat
    | None => forall a b, s <> a ++ v ++ b
    end.
Proof.
  induction s as [| c s IH]; intros pos.
  - cbn [Str.find_from].
    destruct (String.prefix v "") eqn:Hp.
    + apply prefix_true_iff in Hp as [b Hb].
      exists "", b. split; [exact Hb |]. split; [simpl; lia | intros; simpl; lia].
    + intros a b Hab. destruct a as [| x a]; [| discriminate].
      simpl in Hab. assert (String.prefix v "" = true) by (apply prefix_true_iff; eauto).
      congruence.
  - cbn [Str.find_from].
    destruct (String.prefix v (String c s)) eqn:Hp.
    + apply prefix_true_iff in Hp as [b Hb].
      exists "", b. split; [exact Hb |]. split; [simpl; lia | intros; simpl; lia].
    + specialize (IH (S pos)).
      assert (Hnot : forall b, String c s <> v ++ b).
      { intros b Hb. assert (String.prefix v (String c s) = true)
          by (apply prefix_true_iff; eauto). congruence. }
      destruct (Str.find_from (S pos) s v) as [n |].
      * destruct IH as (a & b & Hs & Hn & Hmin).
        exists (String c a), b. split; [simpl; now rewrite Hs |].
        split; [simpl; lia |].
        intros a' b' Hab. destruct a' as [| x a'].
        -- exfalso. exact (Hnot b' Hab).
        -- simpl in Hab. injection Hab as _ Hab. simpl.
           specialize (Hmin a' b' Hab). lia.
      * intros a b Hab. destruct a as [| x a].
        -- exact (Hnot b Hab).
        -- simpl in Hab. injection Hab as _ Hab. exact (IH a b Hab).
Qed.

End StringHelpers.

(** X1: [string_ends_with str ending] is true exactly when [str] is some
    string followed by [ending]; in particular every string ends with the
    empty string, and a string shorter than [ending] never ends with it. *)
Theorem string_ends_with_iff (str ending : string) :
  (string_ends_with str ending = true <-> exists b, str = b ++ ending)
  /\ string_ends_with str "" = true
  /\ ((String.length str <? String.length ending)%nat = true ->
      string_ends_with str ending = false).
Proof.
  split; [| split].
  - split.
    + unfold string_ends_with.
      destruct (String.length str <? String.length ending)%nat; [discriminate |].
      intros H. apply equal_true_prefix in H as [r Hr]. unfold Str.rrange in Hr.
      apply (f_equal (@rev ascii)) in Hr.
      rewrite rev_involutive, rev_app_distr, rev_involutive in Hr.
      exists (string_of_list_ascii (rev r)).
      rewrite <- (string_of_list_ascii_of_string str), Hr, string_of_list_ascii_app.
      now rewrite string_of_list_ascii_of_string.
    + intros [b ->]. apply string_ends_with_append.
  - rewrite <- (append_nil_r str) at 1. apply string_ends_with_append.
  - intros H. unfold string_ends_with. now rewrite H.
Qed.

Lemma string_ends_with_iff_witness :
  (String.length "gdb" <? String.length GDB_PROMPT)%nat = true
  /\ string_ends_with "gdb" GDB_PROMPT = false.
Proof.
  split; [reflexivity |].
  exact (proj2 (proj2 (string_ends_with_iff "gdb" GDB_PROMPT)) eq_refl).
Defined.

(** X2: [string_contains str value] is true exactly when [value] occurs in
    [str], and [find] then answers the position of the first occurrence. *)
Theorem string_contains_iff (str value : string) :
  (string_contains str value = true <-> exists a b, str = a ++ value ++ b)
  /\ (forall n, Str.find str value = Some n ->
        exists a b, str = a ++ value ++ b /\ String.length a = n
                    /\ forall a' b', str = a' ++ value ++ b' ->
                                     (n <= String.length a')%nat).
Proof.
  pose proof (find_from_spec value str 0) as H.
  unfold string_contains, Str.find. split.
  - destruct (Str.find_from 0 str value) as [n |].
    + destruct H as (a & b & Hs & _). split; [eauto | reflexivity].
    + split; [discriminate | intros (a & b & Hs); exfalso; exact (H a b Hs)].
  - intros n Hn. rewrite Hn in H. destruct H as (a & b & Hs & Hlen & Hmin).
    exists a, b. split; [exact Hs |]. split; [simpl in Hlen; lia |].
    intros a' b' Hs'. specialize (Hmin a' b' Hs'). simpl in Hlen. lia.
Qed.

Lemma string_contains_iff_witness :
  Str.find idle_answer "not being run" = Some 30%nat
  /\ exists a b, idle_answer = a ++ "not being run" ++ b /\ String.length a = 30%nat.
Proof.
  split; [reflexivity |].
  destruct (proj2 (string_contains_iff idle_answer "not being run") 30%nat eq_refl)
    as (a & b & Hs & Hlen & _).
  exists a, b. split; [exact Hs | exact Hlen].
Defined.

(** ** What a drain does with the bytes of the child *)

Lemma concat_chunks_app (l1 l2 : list string) :
  concat_chunks (l1 ++ l2)%list = concat_chunks l1 ++ concat_chunks l2.
Proof.
  induction l1 as [| c l1 IH]; simpl; [reflexivity |].
  now rewrite IH, append_assoc.
Qed.

Lemma length_zero_empty (s : string) : (String.length s =? 0)%nat = true -> s = "".
Proof. destruct s; [reflexivity | discriminate]. Qed.

Lemma drain_err_conserves (pending : list string) :
  forall e,
    snd (drain_err pending e) ++ concat_chunks (fst (drain_err pending e))
    = e ++ concat_chunks pending.
Proof.
  induction pending as [| chunk rest IH]; intros e; simpl; [reflexivity |].
  destruct (String.length chunk =? 0)%nat eqn:Hlen; simpl.
  - now rewrite (length_zero_empty _ Hlen).
  - now rewrite IH, append_assoc.
Qed.

Lemma drain_out_conserves (pending : list string) :
  forall out hit,
    snd (fst (drain_out false pending out hit))
      ++ concat_chunks (fst (fst (drain_out false pending out hit)))
    = out ++ concat_chunks pending.
Proof.
  induction pending as [| chunk rest IH]; intros out hit; simpl; [reflexivity |].
  destruct (String.length chunk =? 0)%nat eqn:Hlen; simpl.
  - now rewrite (length_zero_empty _ Hlen).
  - destruct (string_ends_with chunk GDB_PROMPT); now rewrite IH, append_assoc.
Qed.

Lemma starts_with_refl (s : string) : starts_with s s.
Proof. exists "". now rewrite append_nil_r. Qed.

Lemma starts_with_trans (s t u : string) :
  starts_with s t -> starts_with t u -> starts_with s u.
Proof. intros [r1 ->] [r2 ->]. exists (r2 ++ r1). apply append_assoc. Qed.

Lemma starts_with_append (s t : string) : starts_with (s ++ t) s.
Proof. now exists t. Qed.

Lemma drain_err_starts_with (pending : list string) :
  forall e, starts_with (snd (drain_err pending e)) e.
Proof.
  induction pending as [| chunk rest IH]; intros e; simpl; [apply starts_with_refl |].
  destruct (String.length chunk =? 0)%nat; simpl; [apply starts_with_refl |].
  eapply starts_with_trans; [apply IH | apply starts_with_append].
Qed.

Lemma drain_out_starts_with trim (pending : list string) :
  forall out hit, starts_with (snd (fst (drain_out trim pending out hit))) out.
Proof.
  induction pending as [| chunk rest IH]; intros out hit; simpl; [apply starts_with_refl |].
  destruct (String.length chunk =? 0)%nat; simpl; [apply starts_with_refl |].
  destruct (string_ends_with chunk GDB_PROMPT);
    (eapply starts_with_trans; [apply IH | apply starts_with_append]).
Qed.

(** The pending reads left and the prompt flag do not depend on
    [trim_prompt], nor on the buffer written to. *)
Lemma drain_out_trim_rest (pending : list string) :
  forall out1 out2 hit,
    fst (fst (drain_out true pending out1 hit))
    = fst (fst (drain_out false pending out2 hit))
    /\ snd (drain_out true pending out1 hit) = snd (drain_out false pending out2 hit).
Proof.
  induction pending as [| chunk rest IH]; intros out1 out2 hit; simpl; [tauto |].
  destruct (String.length chunk =? 0)%nat; simpl; [tauto |].
  destruct (string_ends_with chunk GDB_PROMPT); apply IH.
Qed.

Lemma drain_out_hit_kept trim (pending : list string) :
  forall out, snd (drain_out trim pending out true) = true.
Proof. intros out. now rewrite drain_out_hit. Qed.

(** While no chunk ends with the prompt, trimming changes nothing. *)
Lemma drain_out_no_hit_same (pending : list string) :
  forall out hit,
    snd (drain_out true pending out hit) = false ->
    snd (fst (drain_out true pending out hit))
    = snd (fst (drain_out false pending out hit)).
Proof.
  induction pending as [| chunk rest IH]; intros out hit; simpl; [reflexivity |].
  destruct (String.length chunk =? 0)%nat; simpl; [reflexivity |].
  destruct (string_ends_with chunk GDB_PROMPT).
  - now rewrite drain_out_hit_kept.
  - apply IH.
Qed.

Lemma read_until_prompt_loop_conserves (fuel : nat) :
  forall hit g out err trim d,
    read_until_prompt_loop fuel hit g out err trim = Some d ->
    d_error d ++ concat_chunks (err_pending (process (d_gdb d)))
    = err ++ concat_chunks (err_pending (process g))
    /\ (trim = false ->
        d_output d ++ concat_chunks (out_pending (process (d_gdb d)))
        = out ++ concat_chunks (out_pending (process g)))
    /\ starts_with (d_output d) out
    /\ starts_with (d_error d) err.
Proof.
  induction fuel as [| fuel IH]; intros hit g out err trim d H; [discriminate |].
  cbn [read_until_prompt_loop] in H. rewrite (is_alive_pair g) in H.
  destruct (fst (is_alive g) && negb hit).
  - cbn [process set_process] in H.
    pose proof (drain_err_conserves (err_pending (polled (process g))) err) as Herr.
    pose proof (drain_err_starts_with (err_pending (polled (process g))) err) as Herr'.
    destruct (drain_err (err_pending (polled (process g))) err) as [err_rest err'].
    cbn [out_pending set_err_pending] in H.
    pose proof (drain_out_conserves (out_pending (polled (process g))) out hit) as Hout.
    pose proof (drain_out_starts_with trim (out_pending (polled (process g))) out hit)
      as Hout'.
    destruct (drain_out trim (out_pending (polled (process g))) out hit)
      as [[out_rest out'] hit'] eqn:Hdrain.
    apply IH in H as (H1 & H2 & H3 & H4). simpl in *.
    rewrite polled_err_pending in Herr. rewrite polled_out_pending in Hout.
    split; [now rewrite H1 |]. split.
    + intros ->. rewrite (H2 eq_refl). rewrite polled_out_pending in Hdrain.
      rewrite Hdrain in Hout. exact Hout.
    + split; eapply starts_with_trans; eassumption.
  - injection H as <-. simpl.
    rewrite polled_err_pending, polled_out_pending.
    repeat split; try reflexivity; apply starts_with_refl.
Qed.

Lemma read_until_prompt_conserves_bytes_helper fuel g out err trim d :
  read_until_prompt fuel g out err trim = Some d ->
  starts_with (d_output d) out /\ starts_with (d_error d) err.
Proof.
  intros H. now apply read_until_prompt_loop_conserves in H as (_ & _ & H3 & H4).
Qed.

(** X3: a drain neither loses nor reorders bytes.  What it appended to the
    error buffer followed by the error chunks still pending is what was in
    the buffer followed by the chunks pending before; the same holds for the
    output when the prompt is not trimmed; and in every case both buffers
    only grow at their end. *)
Theorem read_until_prompt_conserves_bytes
    (fuel : nat) (g : GDB) (out err : string) (trim : bool) (d : Drained) :
  read_until_prompt fuel g out err trim = Some d ->
  d_error d ++ concat_chunks (err_pending (process (d_gdb d)))
  = err ++ concat_chunks (err_pending (process g))
  /\ (trim = false ->
      d_output d ++ concat_chunks (out_pending (process (d_gdb d)))
      = out ++ concat_chunks (out_pending (process g)))
  /\ starts_with (d_output d) out
  /\ starts_with (d_error d) err.
Proof. apply read_until_prompt_loop_conserves. Qed.

Lemma read_until_prompt_conserves_bytes_witness :
  let g := session [] (false, false)
             ["Breakpoint 1"; ""; " at main" ++ GDB_PROMPT; "late"] ["warning"] in
  exists d,
    read_until_prompt 3 g ">" "!" false = Some d
    /\ d_output d ++ concat_chunks (out_pending (process (d_gdb d)))
       = ">Breakpoint 1 at main(gdb) late"
    /\ d_error d = "!warning".
Proof.
  intros g. eexists. split; [reflexivity |].
  destruct (read_until_prompt_conserves_bytes 3 g ">" "!" false _ eq_refl)
    as (Herr & Hout & _).
  split; [exact (Hout eq_refl) | reflexivity].
Defined.

Lemma read_until_prompt_loop_hit_kept (fuel : nat) g out err trim d :
  read_until_prompt_loop fuel true g out err trim = Some d -> d_hit_prompt d = true.
Proof.
  destruct fuel as [| fuel]; [discriminate |]. cbn [read_until_prompt_loop].
  destruct (is_alive g) as [alive g1]. rewrite andb_false_r.
  intros H. injection H as <-. reflexivity.
Qed.

(** Two runs of the loop on the same session, one trimming and one not:
    they return together, with the same session, error text and flag. *)
Lemma read_until_prompt_loop_trim (fuel : nat) :
  forall hit g out1 out2 err,
    match read_until_prompt_loop fuel hit g out1 err true,
          read_until_prompt_loop fuel hit g out2 err false with
    | Some d1, Some d2 =>
        d_gdb d1 = d_gdb d2 /\ d_error d1 = d_error d2
        /\ d_hit_prompt d1 = d_hit_prompt d2
    | None, None => True
    | _, _ => False
    end.
Proof.
  induction fuel as [| fuel IH]; intros hit g out1 out2 err; [exact I |].
  cbn [read_until_prompt_loop]. destruct (is_alive g) as [alive g1].
  destruct (alive && negb hit); [| tauto].
  destruct (drain_err (err_pending (process g1)) err) as [err_rest err'].
  cbn [out_pending set_err_pending].
  destruct (drain_out_trim_rest (out_pending (process g1)) out1 out2 hit) as [Hrest Hhit].
  destruct (drain_out true (out_pending (process g1)) out1 hit) as [[r1 o1] h1].
  destruct (drain_out false (out_pending (process g1)) out2 hit) as [[r2 o2] h2].
  simpl in Hrest, Hhit. subst r2 h2. apply IH.
Qed.

Lemma read_until_prompt_loop_no_hit_same (fuel : nat) :
  forall hit g out err d,
    read_until_prompt_loop fuel hit g out err true = Some d ->
    d_hit_prompt d = false ->
    exists d', read_until_prompt_loop fuel hit g out err false = Some d'
               /\ d_output d' = d_output d.
Proof.
  induction fuel as [| fuel IH]; intros hit g out err d H Hno; [discriminate |].
  cbn [read_until_prompt_loop] in *. destruct (is_alive g) as [alive g1].
  destruct (alive && negb hit); [| eauto].
  destruct (drain_err (err_pending (process g1)) err) as [err_rest err'].
  cbn [out_pending set_err_pending] in *.
  destruct (drain_out_trim_rest (out_pending (process g1)) out out hit) as [Hrest Hhit].
  pose proof (drain_out_no_hit_same (out_pending (process g1)) out hit) as Hsame.
  destruct (drain_out true (out_pending (process g1)) out hit) as [[r1 o1] h1].
  destruct (drain_out false (out_pending (process g1)) out hit) as [[r2 o2] h2].
  simpl in Hrest, Hhit, Hsame. subst r2 h2.
  destruct h1.
  - apply read_until_prompt_loop_hit_kept in H. congruence.
  - rewrite <- (Hsame eq_refl). now apply IH.
Qed.

(** X4: [trim_prompt] changes nothing but the output text.  With and
    without it a drain returns for the same fuel, leaves the same session
    and error text and the same prompt flag; and when no prompt was hit the
    output text is the same too. *)
Theorem trim_prompt_only_changes_output
    (fuel : nat) (g : GDB) (out err : string) :
  match read_until_prompt fuel g out err true,
        read_until_prompt fuel g out err false with
  | Some d1, Some d2 =>
      d_gdb d1 = d_gdb d2 /\ d_error d1 = d_error d2
      /\ d_hit_prompt d1 = d_hit_prompt d2
      /\ (d_hit_prompt d1 = false -> d_output d1 = d_output d2)
  | None, None => True
  | _, _ => False
  end.
Proof.
  unfold read_until_prompt.
  pose proof (read_until_prompt_loop_trim fuel false g out out err) as H.
  destruct (read_until_prompt_loop fuel false g out err true) as [d1 |] eqn:H1;
    destruct (read_until_prompt_loop fuel false g out err false) as [d2 |] eqn:H2;
    try exact H.
  destruct H as (Hg & He & Hh). repeat split; try assumption.
  intros Hno. destruct (read_until_prompt_loop_no_hit_same _ _ _ _ _ _ H1 Hno)
    as (d' & Hd' & Hout).
  congruence.
Qed.

Lemma trim_prompt_only_changes_output_witness :
  let g := session [(false, false); (false, false)] (true, true)
             ["Starting program"; ""; "exited normally"] ["warning"] in
  exists d1 d2,
    read_until_prompt 3 g "" "" true = Some d1
    /\ read_until_prompt 3 g "" "" false = Some d2
    /\ d_hit_prompt d1 = false
    /\ d_output d1 = d_output d2.
Proof.
  intros g.
  pose proof (trim_prompt_only_changes_output 3 g "" "") as H.
  destruct (read_until_prompt 3 g "" "" true) as [d1 |] eqn:H1; [| discriminate].
  destruct (read_until_prompt 3 g "" "" false) as [d2 |] eqn:H2; [| discriminate].
  injection H1 as <-.
  destruct H as (_ & _ & _ & Hout).
  eexists. exists d2. split; [reflexivity |]. split; [reflexivity |].
  split; [reflexivity | exact (Hout eq_refl)].
Defined.









(** ** The source and assembly queries *)

Lemma get_execution_output_frame fuel line g text g' :
  get_execution_output fuel line g = Some (text, g') ->
  sent (process g') = sent (process g) ++ line ++ Str.endl
  /\ running_program_flag g' = running_program_flag g
  /\ running_program g' = running_program g.
Proof.
  unfold get_execution_output.
  destruct (read_until_prompt _ _ _ _ _) as [d |] eqn:Hd; [| discriminate].
  intros H. injection H as <- <-.
  apply read_until_prompt_frame in Hd as (Hs & Hf & Hr & _). simpl in *. tauto.
Qed.

Lemma is_running_program_sent fuel g b g' :
  is_running_program fuel g = Some (b, g') ->
  sent (process g') = sent (process g) ++ status_query g.
Proof.
  intros H. unfold status_query.
  destruct (running_program_flag g) eqn:Hflag.
  - now destruct (is_running_program_dirty _ _ _ _ Hflag H).
  - rewrite (is_running_program_clean _ _ Hflag) in H. injection H as _ <-.
    now rewrite append_nil_r.
Qed.

Lemma guarded_query_spec fuel command g text g' :
  match is_running_program fuel g with
  | Some (running, g1) =>
      if running then get_execution_output fuel command g1 else Some ("", g1)
  | None => None
  end = Some (text, g') ->
  running_program_flag g' = false
  /\ (running_program g' = false ->
      text = "" /\ sent (process g') = sent (process g) ++ status_query g)
  /\ (running_program g' = true ->
      sent (process g')
      = (sent (process g) ++ status_query g) ++ command ++ Str.endl).
Proof.
  destruct (is_running_program fuel g) as [[running g1] |] eqn:Hrun; [| discriminate].
  pose proof (is_running_program_sent _ _ _ _ Hrun) as Hsent.
  apply is_running_program_result in Hrun as [Hflag Hval].
  destruct running.
  - intros H. apply get_execution_output_frame in H as (Hs & Hf & Hr).
    rewrite Hf, Hr, Hs, Hsent, Hval.
    split; [exact Hflag |]. split; [discriminate | reflexivity].
  - intros H. injection H as <- <-. rewrite Hval.
    split; [exact Hflag |]. split; [tauto | discriminate].
Qed.

(** X6: [get_source_code] and [get_assembly_code] ask gdb only about a
    running program.  When the status (recomputed first if it is dirty) is
    idle, they return the empty text and send nothing but that status query;
    when it is running, they send their command after it.  Either way the
    status is left cached. *)
Theorem source_and_assembly_only_when_running
    (fuel : nat) (g g' : GDB) (text : string) :
  (get_source_code fuel g = Some (text, g') ->
   running_program_flag g' = false
   /\ (running_program g' = false ->
       text = "" /\ sent (process g') = sent (process g) ++ status_query g)
   /\ (running_program g' = true ->
       sent (process g')
       = (sent (process g) ++ status_query g) ++ GDB_SOURCE_LIST ++ Str.endl))
  /\ (get_assembly_code fuel g = Some (text, g') ->
      running_program_flag g' = false
      /\ (running_program g' = false ->
          text = "" /\ sent (process g') = sent (process g) ++ status_query g)
      /\ (running_program g' = true ->
          sent (process g')
          = (sent (process g) ++ status_query g) ++ GDB_ASSEMBLY_LIST ++ Str.endl)).
Proof. split; apply guarded_query_spec. Qed.

Lemma source_and_assembly_only_when_running_witness :
  let idle := execute (Some "help") (session [] (false, false) [idle_answer] []) in
  let busy := execute (Some "start")
                (session [] (false, false)
                   ["Using the running image" ++ GDB_PROMPT; "";
                    "1 int main() {" ++ GDB_PROMPT] []) in
  (exists g', get_source_code 2 idle = Some ("", g')
              /\ sent (process g') = "help" ++ Str.endl ++ "info program" ++ Str.endl)
  /\ (exists g', get_source_code 2 busy = Some ("1 int main() {", g')
                 /\ sent (process g')
                    = "start" ++ Str.endl ++ "info program" ++ Str.endl
                      ++ "list" ++ Str.endl).
Proof.
  intros idle busy. split.
  - eexists. split; [reflexivity |].
    match goal with |- sent (process ?g2) = _ =>
      destruct (proj1 (source_and_assembly_only_when_running 2 idle g2 "") eq_refl)
        as (_ & Hidle & _)
    end.
    destruct (Hidle eq_refl) as [_ Hs]. rewrite Hs. reflexivity.
  - eexists. split; [reflexivity |].
    match goal with |- sent (process ?g2) = _ =>
      destruct (proj1 (source_and_assembly_only_when_running 2 busy g2 "1 int main() {")
                  eq_refl) as (_ & _ & Hbusy)
    end.
    rewrite (Hbusy eq_refl). reflexivity.
Defined.

(** ** The console *)

(** X7: when the child exits for good, without another prompt, during the
    drain that follows an executed command, the cycle still returns, and
    the status it computes is running: the answer to the status query is
    empty, so it does not contain "not being run".  With a top window the
    running text is what gets queued. *)
Theorem status_after_exit_is_running (fuel : nat) (g : GDB) (c : Console) :
  running_program_flag g = true ->
  Forall (fun chunk => ends_with_prompt chunk = false) (out_pending (process g)) ->
  exit_is_final (exit_reports (process g)) (exit_settled (process g)) = true ->
  (length (exit_reports (process g)) <= fuel)%nat ->
  exists g' c',
    update_console_and_gui (S fuel) g c = Some (g', c')
    /\ running_program g' = true
    /\ queued c'
       = (queued c ++ (if fst (GetTopWindow c) then [GDB_STATUS_RUNNING] else []))%list.
Proof.
  intros Hflag Hquiet Hfinal Hfuel.
  destruct (read_until_prompt_loop_to_exit (S fuel) g (cout c) (cerr c) true)
    as (d & Hd & _ & Hgone); [assumption | assumption | lia |].
  destruct (read_until_prompt_loop_frame _ _ _ _ _ _ _ Hd) as (_ & Hflag_d & _).
  destruct (is_running_program_gone fuel (d_gdb d)) as (g' & Hrun & _ & _);
    [congruence | exact Hgone |].
  pose proof (is_running_program_result _ _ _ _ Hrun) as [_ Hval].
  unfold update_console_and_gui, read_until_prompt. rewrite Hd, Hrun.
  set (c1 := set_cerr (d_error d) (set_cout (d_output d) c)).
  assert (Hw : fst (GetTopWindow c1) = fst (GetTopWindow c)).
  { unfold GetTopWindow, c1. simpl. destruct (window_reports c); reflexivity. }
  pose proof (GetTopWindow_queued c1) as Hq.
  destruct (GetTopWindow c1) as [window c2]. simpl in Hw, Hq. subst window.
  destruct (fst (GetTopWindow c)); eexists; eexists;
    (split; [reflexivity |]); (split; [exact Hval |]); simpl; rewrite ?Hq; simpl.
  - reflexivity.
  - now rewrite app_nil_r.
Qed.

Lemma status_after_exit_is_running_witness :
  let g := execute (Some "quit") (session [(false, false); (false, false)] (true, true) [] []) in
  running_program_flag g = true
  /\ exists g' c',
      update_console_and_gui 2 g (console [] [true]) = Some (g', c')
      /\ queued c' = [GDB_STATUS_RUNNING].
Proof.
  intros g. split; [reflexivity |].
  destruct (status_after_exit_is_running 1 g (console [] [true]) eq_refl
              (List.Forall_nil _) eq_refl (le_n 1)) as (g' & c' & Hup & _ & Hq).
  exists g', c'. split; [exact Hup | exact Hq].
Defined.

Lemma extends_refl {A : Type} (l : list A) : extends l l.
Proof. exists []. now rewrite app_nil_r. Qed.

(** What one [update_console_and_gui] does to the console and the session:
    the input and the history are untouched; the output, the error text
    and the bytes sent only grow at their end; at most one event is
    queued, a status text; and the status is left cached. *)
Lemma update_console_and_gui_effect fuel g c g' c' :
  update_console_and_gui fuel g c = Some (g', c') ->
  cin c' = cin c /\ history c' = history c
  /\ starts_with (cout c') (cout c) /\ starts_with (cerr c') (cerr c)
  /\ starts_with (sent (process g')) (sent (process g))
  /\ (exists more, queued c' = (queued c ++ more)%list
                   /\ Forall (fun e => e = GDB_STATUS_IDLE \/ e = GDB_STATUS_RUNNING) more)
  /\ running_program_flag g' = false.
Proof.
  unfold update_console_and_gui.
  destruct (read_until_prompt fuel g (cout c) (cerr c) true) as [d |] eqn:Hd;
    [| discriminate].
  destruct (is_running_program fuel (d_gdb d)) as [[running g1] |] eqn:Hrun;
    [| discriminate].
  pose proof (read_until_prompt_conserves_bytes_helper fuel g (cout c) (cerr c) true d Hd)
    as (Hout & Herr).
  destruct (read_until_prompt_frame _ _ _ _ _ _ Hd) as (Hsent_d & _).
  pose proof (is_running_program_sent _ _ _ _ Hrun) as Hsent.
  apply is_running_program_result in Hrun as [Hflag _].
  set (c1 := set_cerr (d_error d) (set_cout (d_output d) c)).
  pose proof (GetTopWindow_queued c1) as Hq.
  pose proof (GetTopWindow_cin c1) as Hc.
  pose proof (GetTopWindow_history c1) as Hh.
  assert (Hco : cout (snd (GetTopWindow c1)) = d_output d)
    by (unfold GetTopWindow; destruct (window_reports c1); reflexivity).
  assert (Hce : cerr (snd (GetTopWindow c1)) = d_error d)
    by (unfold GetTopWindow; destruct (window_reports c1); reflexivity).
  destruct (GetTopWindow c1) as [window c2]. simpl in Hq, Hc, Hh, Hco, Hce.
  assert (Hs : starts_with (sent (process g1)) (sent (process g))).
  { rewrite Hsent, Hsent_d. apply starts_with_append. }
  destruct window; intros H; injection H as <- <-; simpl;
    rewrite ?Hq, ?Hc, ?Hh, ?Hco, ?Hce;
    (split; [reflexivity |]); (split; [reflexivity |]);
    (split; [exact Hout |]); (split; [exact Herr |]); (split; [exact Hs |]);
    (split; [| exact Hflag]).
  - eexists. split; [reflexivity |].
    apply List.Forall_cons; [| apply List.Forall_nil].
    destruct running; [now right | now left].
  - exists []. split; [now rewrite app_nil_r | apply List.Forall_nil].
Qed.

Lemma execute_sent line g :
  starts_with (sent (process (execute line g))) (sent (process g)).
Proof.
  unfold execute. rewrite (is_alive_pair g).
  destruct line as [l |]; [destruct (fst (is_alive g)) |]; simpl;
    rewrite polled_sent; [apply starts_with_append | apply starts_with_refl ..].
Qed.

Lemma console_loop_history_lines (fuel : nat) :
  forall g c g' c',
    console_loop fuel g c = Some (g', c') ->
    exists consumed,
      cin c = (consumed ++ cin c')%list
      /\ history c' = (history c ++ List.filter nonempty consumed)%list.
Proof.
  induction fuel as [| fuel IH]; intros g c g' c' H; [discriminate |].
  cbn [console_loop] in H. destruct (is_alive g) as [[] g1].
  - unfold readline in H. destruct (cin c) as [| line rest] eqn:Hcin.
    + apply update_console_and_gui_effect in H as (Hc & Hh & _). simpl in Hc, Hh.
      exists []. simpl. rewrite Hc, Hh, app_nil_r, Hcin. split; reflexivity.
    + destruct (strlen line =? 0)%nat eqn:Hlen.
      * apply IH in H as (consumed & Hc & Hh). simpl in Hc, Hh.
        exists (line :: consumed). simpl. unfold nonempty at 1. rewrite Hlen. simpl.
        split; [now rewrite Hc | exact Hh].
      * destruct (update_console_and_gui fuel _ _) as [[g3 c3] |] eqn:Hup;
          [| discriminate].
        apply update_console_and_gui_effect in Hup as (Hc3 & Hh3 & _).
        simpl in Hc3, Hh3.
        apply IH in H as (consumed & Hc & Hh).
        exists (line :: consumed). simpl. unfold nonempty at 1. rewrite Hlen. simpl.
        split; [now rewrite <- Hc, Hc3 |].
        rewrite Hh, Hh3, <- app_assoc. reflexivity.
  - injection H as <- <-. exists []. simpl. now rewrite app_nil_r.
Qed.

(** X8: when the console loop returns, the lines it took from the input
    are a prefix of the input, and the history has gained exactly the
    non-empty ones among them, in their order: an empty line is read and
    dropped. *)
Theorem console_loop_history
    (fuel : nat) (g g' : GDB) (c c' : Console) :
  console_loop fuel g c = Some (g', c') ->
  exists consumed,
    cin c = (consumed ++ cin c')%list
    /\ history c' = (history c ++ List.filter nonempty consumed)%list.
Proof. apply console_loop_history_lines. Qed.

Lemma console_loop_history_witness :
  let g := session (repeat (false, false) 8) (true, true)
             ["commands" ++ GDB_PROMPT; ""; idle_answer; ""] [] in
  let c := console [""; "help"; ""] [] in
  exists g' c' consumed,
    console_loop 8 g c = Some (g', c')
    /\ cin c = (consumed ++ cin c')%list
    /\ history c' = List.filter nonempty consumed.
Proof.
  intros g c.
  destruct (console_loop 8 g c) as [[g' c'] |] eqn:Hloop;
    [| vm_compute in Hloop; discriminate].
  destruct (console_loop_history 8 g g' c c' Hloop) as (consumed & Hc & Hh).
  exists g', c', consumed. split; [reflexivity |]. split; [exact Hc | exact Hh].
Defined.

Lemma console_loop_grows (fuel : nat) :
  forall g c g' c',
    console_loop fuel g c = Some (g', c') ->
    starts_with (sent (process g')) (sent (process g))
    /\ starts_with (cout c') (cout c)
    /\ starts_with (cerr c') (cerr c)
    /\ exists more, queued c' = (queued c ++ more)%list
                    /\ Forall (fun e => e = GDB_STATUS_IDLE \/ e = GDB_STATUS_RUNNING) more.
Proof.
  induction fuel as [| fuel IH]; intros g c g' c' H; [discriminate |].
  cbn [console_loop] in H.
  pose proof (is_alive_state g) as Hg1.
  destruct (is_alive g) as [[] g1]; simpl in Hg1.
  - assert (Hs1 : sent (process g1) = sent (process g))
      by (rewrite Hg1; simpl; apply polled_sent).
    unfold readline in H. destruct (cin c) as [| line rest] eqn:Hcin.
    + apply update_console_and_gui_effect in H as (_ & _ & Ho & He & Hs & Hq & _).
      simpl in Ho, He, Hq.
      split; [| split; [| split; [exact He | exact Hq]]].
      * rewrite <- Hs1. eapply starts_with_trans; [exact Hs | apply execute_sent].
      * eapply starts_with_trans; [exact Ho | apply starts_with_append].
    + destruct (strlen line =? 0)%nat.
      * apply IH in H. simpl in H. now rewrite Hs1 in H.
      * destruct (update_console_and_gui fuel _ _) as [[g3 c3] |] eqn:Hup;
          [| discriminate].
        apply update_console_and_gui_effect in Hup
          as (_ & _ & Ho & He & Hs & (more1 & Hq1 & Hall1) & _).
        simpl in Ho, He, Hq1.
        apply IH in H as (Hs' & Ho' & He' & (more2 & Hq2 & Hall2)).
        split; [| split; [| split]].
        -- rewrite <- Hs1. eapply starts_with_trans; [exact Hs' |].
           eapply starts_with_trans; [exact Hs | apply execute_sent].
        -- eapply starts_with_trans; eassumption.
        -- eapply starts_with_trans; eassumption.
        -- exists (more1 ++ more2)%list. split.
           ++ now rewrite Hq2, Hq1, <- app_assoc.
           ++ apply List.Forall_app. split; assumption.
  - injection H as <- <-. rewrite Hg1. simpl. rewrite polled_sent.
    repeat split; try apply starts_with_refl.
    exists []. split; [now rewrite app_nil_r | apply List.Forall_nil].
Qed.

(** X9: the console loop only ever appends.  What was sent to the child,
    written to [cout] and [cerr], and queued for the GUI before the loop
    is still there, unchanged and in front, when the loop returns; and
    every event the loop queued is one of the two status texts. *)
Theorem console_loop_only_appends
    (fuel : nat) (g g' : GDB) (c c' : Console) :
  console_loop fuel g c = Some (g', c') ->
  starts_with (sent (process g')) (sent (process g))
  /\ starts_with (cout c') (cout c)
  /\ starts_with (cerr c') (cerr c)
  /\ exists more, queued c' = (queued c ++ more)%list
                  /\ Forall (fun e => e = GDB_STATUS_IDLE \/ e = GDB_STATUS_RUNNING) more.
Proof. apply console_loop_grows. Qed.

Lemma console_loop_only_appends_witness :
  let g := session (repeat (false, false) 8) (true, true)
             ["commands" ++ GDB_PROMPT; ""; idle_answer; ""] [] in
  exists g' c',
    console_loop 8 g (console ["help"] [true]) = Some (g', c')
    /\ starts_with (sent (process g')) (sent (process g))
    /\ exists more, queued c' = more
                    /\ Forall (fun e => e = GDB_STATUS_IDLE \/ e = GDB_STATUS_RUNNING) more.
Proof.
  intros g.
  destruct (console_loop 8 g (console ["help"] [true])) as [[g' c'] |] eqn:Hloop;
    [| vm_compute in Hloop; discriminate].
  destruct (console_loop_only_appends 8 g g' (console ["help"] [true]) c' Hloop)
    as (Hs & _ & _ & more & Hq & Hall).
  exists g', c'. split; [reflexivity |]. split; [exact Hs |].
  exists more. split; [exact Hq | exact Hall].
Defined.

(** X10: how the console starts.  Whenever [open_console] returns, its
    first step was an update of the fresh session that sent nothing to the
    child (no status query before the first command), left the status idle
    and queued the idle text if the top window was there; the loop ran from
    that state. *)
Theorem open_console_starts_idle
    (fuel : nat) (argv : list string) (child : pstream) (c : Console)
    (r : GDB * Console) :
  open_console fuel argv child c = Some r ->
  exists g1 c1,
    update_console_and_gui fuel (GDB_new argv child) c = Some (g1, c1)
    /\ console_loop fuel g1 c1 = Some r
    /\ sent (process g1) = ""
    /\ running_program g1 = false
    /\ queued c1
       = (queued c ++ (if fst (GetTopWindow c) then [GDB_STATUS_IDLE] else []))%list.
Proof.
  unfold open_console.
  destruct (update_console_and_gui fuel (GDB_new argv child) c) as [[g1 c1] |] eqn:Hup;
    [| discriminate].
  intros Hloop. exists g1, c1. split; [reflexivity |]. split; [exact Hloop |].
  unfold update_console_and_gui in Hup.
  destruct (read_until_prompt fuel (GDB_new argv child) (cout c) (cerr c) true)
    as [d |] eqn:Hd; [| discriminate].
  apply read_until_prompt_frame in Hd as (Hsent & Hflag & Hrun & _).
  simpl in Hsent, Hflag, Hrun.
  rewrite (is_running_program_clean fuel (d_gdb d) Hflag), Hrun in Hup.
  set (c0 := set_cerr (d_error d) (set_cout (d_output d) c)) in Hup.
  assert (Hw : fst (GetTopWindow c0) = fst (GetTopWindow c)).
  { unfold GetTopWindow, c0. simpl. destruct (window_reports c); reflexivity. }
  pose proof (GetTopWindow_queued c0) as Hq.
  destruct (GetTopWindow c0) as [window c2]. simpl in Hw, Hq. subst window.
  destruct (fst (GetTopWindow c)); injection Hup as <- <-; simpl; rewrite ?Hq;
    (split; [exact Hsent |]); (split; [exact Hrun |]).
  - reflexivity.
  - now rewrite app_nil_r.
Qed.

Lemma open_console_starts_idle_witness :
  let child := mk_pstream "" (repeat (false, false) 4) (true, true)
                 ["GNU gdb" ++ Str.endl ++ GDB_PROMPT] [] in
  exists r g1 c1,
    open_console 4 ["gg"; "a.out"] child (console [] [true]) = Some r
    /\ update_console_and_gui 4 (GDB_new ["gg"; "a.out"] child) (console [] [true])
       = Some (g1, c1)
    /\ sent (process g1) = ""
    /\ queued c1 = [GDB_STATUS_IDLE].
Proof.
  intros child.
  destruct (open_console 4 ["gg"; "a.out"] child (console [] [true])) as [r |] eqn:Hopen;
    [| vm_compute in Hopen; discriminate].
  destruct (open_console_starts_idle 4 ["gg"; "a.out"] child (console [] [true]) r Hopen)
    as (g1 & c1 & Hup & _ & Hsent & _ & Hq).
  exists r, g1, c1. split; [reflexivity |]. split; [exact Hup |].
  split; [exact Hsent | exact Hq].
Defined.

(** X11: when the child has already exited as the console starts (gdb
    could not be run), [open_console] returns without waiting: no line of
    input is read, nothing is sent to the child or printed, and the only
    effect is the idle text queued if the top window is there. *)
Theorem open_console_child_gone
    (fuel : nat) (argv : list string) (child : pstream) (c : Console) :
  gone child = true ->
  exists g' c',
    open_console (S fuel) argv child c = Some (g', c')
    /\ sent (process g') = ""
    /\ cin c' = cin c /\ history c' = history c
    /\ cout c' = cout c /\ cerr c' = cerr c
    /\ queued c'
       = (queued c ++ (if fst (GetTopWindow c) then [GDB_STATUS_IDLE] else []))%list.
Proof.
  intros Hgone. unfold open_console, update_console_and_gui.
  set (g := GDB_new argv child).
  assert (Hg : gone (process g) = true) by exact Hgone.
  rewrite (read_until_prompt_gone fuel g (cout c) (cerr c) true Hg).
  cbn [d_gdb d_output d_error].
  destruct (gone_not_alive g Hg) as [_ Hg1].
  set (g1 := snd (is_alive g)) in *.
  assert (Hflag : running_program_flag g1 = false)
    by (unfold g1; rewrite is_alive_state; reflexivity).
  assert (Hrun : running_program g1 = false)
    by (unfold g1; rewrite is_alive_state; reflexivity).
  assert (Hsent : sent (process g1) = "")
    by (unfold g1; rewrite is_alive_state; simpl; now rewrite polled_sent).
  rewrite (is_running_program_clean (S fuel) g1 Hflag), Hrun.
  set (c0 := set_cerr (cerr c) (set_cout (cout c) c)).
  assert (Hc0 : c0 = c) by now destruct c.
  rewrite Hc0.
  pose proof (GetTopWindow_queued c) as Hq.
  pose proof (GetTopWindow_cin c) as Hc.
  pose proof (GetTopWindow_history c) as Hh.
  assert (Hco : cout (snd (GetTopWindow c)) = cout c)
    by (unfold GetTopWindow; destruct (window_reports c); reflexivity).
  assert (Hce : cerr (snd (GetTopWindow c)) = cerr c)
    by (unfold GetTopWindow; destruct (window_reports c); reflexivity).
  destruct (gone_not_alive g1 Hg1) as [Hdead _].
  destruct (GetTopWindow c) as [window c2]. simpl in Hq, Hc, Hh, Hco, Hce. simpl.
  destruct window; cbn [console_loop]; rewrite (is_alive_pair g1), Hdead;
    eexists; eexists; (split; [reflexivity |]); simpl;
    rewrite polled_sent, Hsent, ?Hq, ?Hc, ?Hh, ?Hco, ?Hce, ?app_nil_r;
    repeat split.
Qed.

Lemma open_console_child_gone_witness :
  let child := mk_pstream "" [] (true, true) [] [] in
  gone child = true
  /\ exists g' c',
      open_console 1 ["gg"] child (console ["run"] [false]) = Some (g', c')
      /\ cin c' = ["run"] /\ queued c' = [].
Proof.
  intros child. split; [reflexivity |].
  destruct (open_console_child_gone 0 ["gg"] child (console ["run"] [false]) eq_refl)
    as (g' & c' & Hopen & _ & Hcin & _ & _ & _ & Hq).
  exists g', c'. split; [exact Hopen |]. split; [exact Hcin | exact Hq].
Defined.

(** ** The stack image *)

Module StackImage.
Import StackPanel StackPanelFacts StackWindow.

Local Open Scope Z_scope.

Lemma array_ext (a b : list Z) :
  length a = length b ->
  (forall j, 0 <= j < Z.of_nat (length a) -> array_get a j = array_get b j) ->
  a = b.
Proof.
  intros Hlen Hget. apply list_eq. intros i.
  destruct (Nat.lt_ge_cases i (length a)) as [Hlt | Hge].
  - destruct (lookup_lt_is_Some_2 a i Hlt) as [x Hx].
    destruct (lookup_lt_is_Some_2 b i ltac:(lia)) as [y Hy].
    specialize (Hget (Z.of_nat i) ltac:(lia)).
    unfold array_get in Hget. destruct (Z.ltb_spec (Z.of_nat i) 0); [lia |].
    rewrite Nat2Z.id, Hx, Hy in Hget. simpl in Hget. now rewrite Hx, Hy, Hget.
  - rewrite (lookup_ge_None_2 a i Hge), (lookup_ge_None_2 b i ltac:(lia)). reflexivity.
Qed.

(** The merge branch of [SetStackFrame], in closed form. *)
Lemma merge_result (p : GDBStackPanel) (f : StackFrame) (old mem : list Z) :
  stack_global p = Some old ->
  memory f = Some mem ->
  Z.of_nat (length old) = stack_size p ->
  Z.of_nat (length mem) = memory_length f ->
  - 2 ^ 63 <= stack_top p -> stack_top p + stack_size p < 2 ^ 63 ->
  - 2 ^ 63 <= stack_pointer f -> stack_pointer f + memory_length f < 2 ^ 63 ->
  Z.max (stack_pointer f + memory_length f) (stack_top p + stack_size p)
  - Z.min (stack_pointer f) (stack_top p) <= INT_MAX ->
  let new_top := Z.min (stack_pointer f) (stack_top p) in
  let new_bottom := Z.max (stack_pointer f + memory_length f) (stack_top p + stack_size p) in
  exists image,
    SetStackFrame (Some f) p = mk_GDBStackPanel (Some image) (new_bottom - new_top) new_top
    /\ Z.of_nat (length image) = new_bottom - new_top
    /\ forall j, 0 <= j < new_bottom - new_top ->
         array_get image j
         = merged mem old (stack_pointer f) (stack_pointer f + memory_length f)
                  (stack_top p) (stack_top p + stack_size p) (new_top + j).
Proof.
  intros Hglobal Hmemory Hold Hmem Htop Hbot Hsp Hfb Hint new_top new_bottom.
  subst new_top new_bottom.
  set (frame_top := stack_pointer f) in *.
  set (frame_bottom := stack_pointer f + memory_length f) in *.
  set (old_top := stack_top p) in *.
  set (old_bottom := stack_top p + stack_size p) in *.
  assert (Hsize : 0 <= stack_size p) by lia.
  assert (Hmlen : 0 <= memory_length f) by lia.
  unfold INT_MAX in Hint.
  assert (Hfbot : ladd (stack_pointer f) (memory_length f) = frame_bottom)
    by (apply long_wrap_small; subst frame_bottom frame_top; lia).
  assert (Hobot : ladd (stack_top p) (stack_size p) = old_bottom)
    by (apply long_wrap_small; subst old_bottom old_top; lia).
  unfold SetStackFrame. rewrite Hmemory, Hglobal.
  rewrite !Hfbot, !Hobot. fold frame_top old_top.
  rewrite !(min_by_ltb frame_top old_top), !(max_by_gtb frame_bottom old_bottom).
  set (new_top := Z.min frame_top old_top) in *.
  set (new_bottom := Z.max frame_bottom old_bottom) in *.
  assert (Hnew : lsub new_bottom new_top = new_bottom - new_top).
  { unfold lsub. apply long_wrap_small.
    subst new_top new_bottom frame_top frame_bottom old_top old_bottom. lia. }
  rewrite Hnew.
  set (aliased := (new_top =? old_top) && (new_bottom =? old_bottom)).
  set (new_stack := if aliased then old else malloc (new_bottom - new_top)).
  assert (Hnlen : Z.of_nat (length new_stack) = new_bottom - new_top).
  { unfold new_stack, aliased.
    destruct (Z.eqb_spec new_top old_top), (Z.eqb_spec new_bottom old_bottom);
      simpl; unfold malloc; rewrite ?repeat_length;
      subst new_top new_bottom frame_top frame_bottom old_top old_bottom; lia. }
  destruct (copy_loop_spec mem old frame_top frame_bottom old_top old_bottom new_top)
    with (n := Z.to_nat (new_bottom - new_top)) (index := 0) (aliased := aliased)
         (new_stack := new_stack) (old_stack := old) as [Hlen Hval].
  - subst frame_top frame_bottom. lia.
  - subst old_top old_bottom. lia.
  - subst new_top frame_top old_top. lia.
  - lia.
  - lia.
  - subst new_top new_bottom frame_top frame_bottom old_top old_bottom. lia.
  - unfold old_view, new_stack, aliased.
    destruct (Z.eqb_spec new_top old_top), (Z.eqb_spec new_bottom old_bottom);
      simpl; auto.
  - eexists. split; [reflexivity |]. split; [lia |].
    intros j Hj. rewrite Hval by lia.
    destruct (Z.leb_spec 0 j); [| lia].
    destruct (Z.ltb_spec j (0 + Z.of_nat (Z.to_nat (new_bottom - new_top)))); [| lia].
    reflexivity.
Qed.

(** Reporting a frame whose bytes the image already holds changes
    nothing. *)
Ltac arith := unfold INT_MAX in *; lia.

Lemma merge_known_frame (p : GDBStackPanel) (f : StackFrame) (old mem : list Z) :
  stack_global p = Some old ->
  memory f = Some mem ->
  Z.of_nat (length old) = stack_size p ->
  Z.of_nat (length mem) = memory_length f ->
  - 2 ^ 63 <= stack_top p -> stack_top p + stack_size p < 2 ^ 63 ->
  stack_size p <= INT_MAX ->
  stack_top p <= stack_pointer f ->
  stack_pointer f + memory_length f <= stack_top p + stack_size p ->
  (forall a, stack_pointer f <= a < stack_pointer f + memory_length f ->
     array_get old (a - stack_top p) = array_get mem (a - stack_pointer f)) ->
  SetStackFrame (Some f) p = p.
Proof.
  intros Hglobal Hmemory Hold Hmem Htop Hbot Hint Hin1 Hin2 Hsame.
  destruct (merge_result p f old mem Hglobal Hmemory Hold Hmem Htop Hbot)
    as (image & Hp & Hlen & Hval); try arith.
  rewrite Hp.
  replace (Z.min (stack_pointer f) (stack_top p)) with (stack_top p) in * by lia.
  replace (Z.max (stack_pointer f + memory_length f) (stack_top p + stack_size p))
    with (stack_top p + stack_size p) in * by lia.
  replace (stack_top p + stack_size p - stack_top p) with (stack_size p) in * by lia.
  assert (image = old) as ->.
  { apply array_ext; [lia |]. intros j Hj. rewrite Hval by lia. unfold merged.
    destruct (Z.leb_spec (stack_pointer f) (stack_top p + j)),
             (Z.ltb_spec (stack_top p + j) (stack_pointer f + memory_length f)),
             (Z.leb_spec (stack_top p) (stack_top p + j)),
             (Z.ltb_spec (stack_top p + j) (stack_top p + stack_size p));
      simpl; try lia;
      first [ rewrite <- Hsame by lia; f_equal; lia | f_equal; lia ]. }
  destruct p as [sg ss st]. simpl in *. now rewrite Hglobal.
Qed.

Lemma firstn_whole (mem : list Z) (n : Z) :
  Z.of_nat (length mem) = n -> firstn (Z.to_nat n) mem = mem.
Proof. intros H. apply firstn_all2. lia. Qed.

Lemma SetStackFrame_within (lo hi : Z) (stack_frame : option StackFrame)
    (p : GDBStackPanel) :
  window lo hi ->
  frame_within lo hi stack_frame ->
  panel_within lo hi p ->
  panel_within lo hi (SetStackFrame stack_frame p).
Proof.
  intros (Hlo & Hhi & Hint) Hf Hp. unfold frame_within in Hf. unfold panel_within in Hp.
  destruct stack_frame as [f |].
  - destruct (memory f) as [mem |] eqn:Hmemory.
    + destruct Hf as (Hmem & Hf1 & Hf2).
      destruct (stack_global p) as [old |] eqn:Hglobal.
      * destruct Hp as (Hold & Hp1 & Hp2).
        destruct (merge_result p f old mem Hglobal Hmemory Hold Hmem)
          as (image & Heq & Hlen & _); try arith.
        rewrite Heq. unfold panel_within. simpl. lia.
      * unfold SetStackFrame. rewrite Hmemory, Hglobal. unfold panel_within. simpl.
        rewrite firstn_whole by exact Hmem. lia.
    + unfold SetStackFrame. rewrite Hmemory.
      destruct (stack_global p) eqn:Hglobal; unfold panel_within; simpl;
        [tauto | now rewrite Hglobal].
  - unfold SetStackFrame.
    destruct (stack_global p) eqn:Hglobal; unfold panel_within; simpl;
      [tauto | now rewrite Hglobal].
Qed.

(** X12: the image stays well formed.  Starting from a panel whose image
    has [stack_size] values and lies within an address window (the empty
    panel is one), after any series of calls of [SetStackFrame] with
    frames, null frames or frames without memory, each frame as long as its
    length says and within the window, the stored image again has exactly
    [stack_size] values and lies within the window. *)
Theorem SetStackFrame_keeps_image_well_formed
    (lo hi : Z) (frames : list (option StackFrame)) (p : GDBStackPanel) :
  window lo hi ->
  Forall (frame_within lo hi) frames ->
  panel_within lo hi p ->
  panel_within lo hi (after_frames frames p)
  /\ panel_within lo hi empty_panel.
Proof.
  intros Hw Hall Hp. split; [| unfold panel_within; simpl; tauto].
  revert p Hp. induction frames as [| sf frames IH]; intros p Hp; [exact Hp |].
  apply List.Forall_cons_iff in Hall as [Hsf Hall]. simpl.
  apply IH; [exact Hall |]. now apply SetStackFrame_within.
Qed.

Lemma SetStackFrame_keeps_image_well_formed_witness :
  panel_within 0 100
    (after_frames [Some frame_A; None; Some frame_B; Some frame_A] empty_panel).
Proof.
  apply (SetStackFrame_keeps_image_well_formed 0 100).
  - unfold window, INT_MAX. lia.
  - repeat apply List.Forall_cons; try apply List.Forall_nil;
      simpl; try exact I; repeat split; lia.
  - unfold panel_within. simpl. tauto.
Defined.

(** X13: reporting the same frame twice is the same as reporting it once:
    the second call finds the borders unchanged, rewrites the frame's bytes
    in place with the values they already have, and leaves the panel as it
    is. *)
Theorem SetStackFrame_idempotent
    (lo hi : Z) (f : StackFrame) (p : GDBStackPanel) :
  window lo hi ->
  frame_within lo hi (Some f) ->
  panel_within lo hi p ->
  SetStackFrame (Some f) (SetStackFrame (Some f) p) = SetStackFrame (Some f) p.
Proof.
  intros Hw Hf Hp.
  pose proof (SetStackFrame_within lo hi (Some f) p Hw Hf Hp) as Hp1.
  destruct Hw as (Hlo & Hhi & Hint). unfold frame_within in Hf.
  destruct (memory f) as [mem |] eqn:Hmemory.
  - destruct Hf as (Hmem & Hf1 & Hf2).
    unfold panel_within in Hp.
    destruct (stack_global p) as [old |] eqn:Hglobal.
    + destruct Hp as (Hold & Hp1' & Hp2).
      destruct (merge_result p f old mem Hglobal Hmemory Hold Hmem)
        as (image & Heq & Hlen & Hval); try arith.
      rewrite Heq in *.
      apply (merge_known_frame _ f image mem); simpl; try reflexivity;
        try assumption; try arith.
      intros a Ha. rewrite Hval by lia. unfold merged.
      replace (Z.min (stack_pointer f) (stack_top p)
               + (a - Z.min (stack_pointer f) (stack_top p))) with a by lia.
      destruct (Z.leb_spec (stack_pointer f) a),
               (Z.ltb_spec a (stack_pointer f + memory_length f)); simpl;
        first [lia | reflexivity].
    + assert (Heq : SetStackFrame (Some f) p
                    = mk_GDBStackPanel (Some mem) (memory_length f) (stack_pointer f)).
      { unfold SetStackFrame. rewrite Hmemory, Hglobal.
        now rewrite firstn_whole by exact Hmem. }
      rewrite Heq.
      apply (merge_known_frame _ f mem mem); simpl; try reflexivity;
        try assumption; arith.
  - unfold SetStackFrame. rewrite Hmemory.
    destruct (stack_global p) eqn:Hglobal; simpl; [reflexivity | now rewrite Hglobal].
Qed.

Lemma SetStackFrame_idempotent_witness :
  let p := SetStackFrame (Some frame_A) empty_panel in
  SetStackFrame (Some frame_B) (SetStackFrame (Some frame_B) p)
  = SetStackFrame (Some frame_B) p.
Proof.
  intros p. apply (SetStackFrame_idempotent 0 100).
  - unfold window, INT_MAX. lia.
  - simpl. repeat split; lia.
  - unfold panel_within. simpl. repeat split; lia.
Defined.

(** X14: a frame that covers the whole old image replaces it: the stored
    image is the frame's memory, at the frame's address and of the frame's
    length, and nothing of the old image is left.  The same holds when
    there was no image. *)
Theorem SetStackFrame_covering_frame_replaces
    (lo hi : Z) (f : StackFrame) (mem : list Z) (p : GDBStackPanel) :
  window lo hi ->
  frame_within lo hi (Some f) ->
  panel_within lo hi p ->
  memory f = Some mem ->
  (stack_global p <> None ->
   stack_pointer f <= stack_top p
   /\ stack_top p + stack_size p <= stack_pointer f + memory_length f) ->
  SetStackFrame (Some f) p
  = mk_GDBStackPanel (Some mem) (memory_length f) (stack_pointer f).
Proof.
  intros (Hlo & Hhi & Hint) Hf Hp Hmemory Hcover.
  unfold frame_within in Hf. rewrite Hmemory in Hf. destruct Hf as (Hmem & Hf1 & Hf2).
  unfold panel_within in Hp.
  destruct (stack_global p) as [old |] eqn:Hglobal.
  - destruct Hp as (Hold & Hp1 & Hp2). destruct (Hcover ltac:(discriminate)) as [Hc1 Hc2].
    destruct (merge_result p f old mem Hglobal Hmemory Hold Hmem)
      as (image & Heq & Hlen & Hval); try arith.
    rewrite Heq.
    replace (Z.min (stack_pointer f) (stack_top p)) with (stack_pointer f) in * by lia.
    replace (Z.max (stack_pointer f + memory_length f) (stack_top p + stack_size p))
      with (stack_pointer f + memory_length f) in * by lia.
    replace (stack_pointer f + memory_length f - stack_pointer f)
      with (memory_length f) in * by lia.
    f_equal. f_equal. apply array_ext; [lia |].
    intros j Hj. rewrite Hval by lia. unfold merged.
    destruct (Z.leb_spec (stack_pointer f) (stack_pointer f + j)),
             (Z.ltb_spec (stack_pointer f + j) (stack_pointer f + memory_length f));
      simpl; try arith. f_equal. lia.
  - unfold SetStackFrame. rewrite Hmemory, Hglobal.
    now rewrite firstn_whole by exact Hmem.
Qed.

Lemma SetStackFrame_covering_frame_replaces_witness :
  let wide := mk_StackFrame 8 30 (Some (repeat 7 20)) 20 in
  SetStackFrame (Some wide) (SetStackFrame (Some frame_A) empty_panel)
  = mk_GDBStackPanel (Some (repeat 7 20)) 20 8.
Proof.
  intros wide.
  apply (SetStackFrame_covering_frame_replaces 0 100 wide (repeat 7 20)).
  - unfold window, INT_MAX. lia.
  - simpl. repeat split; lia.
  - unfold panel_within. simpl. repeat split; lia.
  - reflexivity.
  - intros _. simpl. lia.
Defined.

(** X15: a null frame, or a frame without memory, clears the image: the
    panel is then the empty panel (if it held an image) and holds no image
    in any case; and the next frame starts a new image that is just that
    frame, whatever was stored before the clearing. *)
Theorem SetStackFrame_null_clears (p : GDBStackPanel) (f : StackFrame) :
  stack_global (SetStackFrame None p) = None
  /\ (stack_global p <> None -> SetStackFrame None p = empty_panel)
  /\ (memory f = None -> SetStackFrame (Some f) p = SetStackFrame None p)
  /\ (forall mem,
        memory f = Some mem ->
        Z.of_nat (length mem) = memory_length f ->
        SetStackFrame (Some f) (SetStackFrame None p)
        = mk_GDBStackPanel (Some mem) (memory_length f) (stack_pointer f)).
Proof.
  assert (Hnone : stack_global (SetStackFrame None p) = None).
  { unfold SetStackFrame. destruct (stack_global p) eqn:H; [reflexivity | exact H]. }
  split; [exact Hnone |]. split; [| split].
  - intros H. unfold SetStackFrame. destruct (stack_global p); [reflexivity | congruence].
  - intros H. unfold SetStackFrame. now rewrite H.
  - intros mem Hmemory Hmem.
    unfold SetStackFrame at 1. rewrite Hmemory, Hnone.
    now rewrite firstn_whole by exact Hmem.
Qed.

Lemma SetStackFrame_null_clears_witness :
  let p := SetStackFrame (Some frame_A) empty_panel in
  SetStackFrame None p = empty_panel
  /\ SetStackFrame (Some frame_B) (SetStackFrame None p)
     = mk_GDBStackPanel (memory frame_B) 10 15.
Proof.
  intros p.
  destruct (SetStackFrame_null_clears p frame_B) as (_ & Hclear & _ & Hnext).
  split; [apply Hclear; discriminate |].
  exact (Hnext _ eq_refl eq_refl).
Defined.

End StackImage.

(** ** Numbers as text *)

Section NumbersAsText.

Local Open Scope Z_scope.

Lemma decimal_text_inj (a b : Z) : decimal_text a = decimal_text b -> a = b.
Proof.
  unfold decimal_text. intros H.
  assert (Hnz : forall z, Z.to_int z <> Decimal.Pos Decimal.Nil
                          /\ Z.to_int z <> Decimal.Neg Decimal.Nil).
  { intros [| p | p]; simpl; split; try discriminate;
      intros Hp; injection Hp as Hp; exact (DecimalPos.Unsigned.to_uint_nonnil p Hp). }
  apply (f_equal DecimalString.NilZero.int_of_string) in H.
  rewrite !DecimalString.NilZero.isi in H by apply Hnz.
  injection H as H. apply (f_equal Z.of_int) in H.
  now rewrite !DecimalZ.of_to in H.
Qed.

Lemma hex_text_inj (a b : Z) :
  hex_text a = hex_text b -> a mod 2 ^ 64 = b mod 2 ^ 64.
Proof.
  unfold hex_text. intros H.
  assert (Hnn : forall n, N.to_hex_uint n <> Hexadecimal.Nil).
  { intros [| p]; simpl; [discriminate | apply HexadecimalPos.Unsigned.to_uint_nonnil]. }
  apply (f_equal HexadecimalString.NilZero.uint_of_string) in H.
  rewrite !HexadecimalString.NilZero.usu in H by apply Hnn.
  injection H as H. apply HexadecimalN.Unsigned.to_uint_inj in H.
  apply (f_equal Z.of_N) in H.
  rewrite !Z2N.id in H by (apply Z.mod_pos_bound; lia). exact H.
Qed.

End NumbersAsText.

(** X16: [long_to_string] shows different [long] values differently, in
    decimal as in hexadecimal (where a negative value is shown as its
    unsigned 64-bit pattern); the hexadecimal text starts with "0x" and the
    decimal text of zero is "0". *)
Theorem long_to_string_injective (a b use_hex : Z) :
  (- 2 ^ 63 <= a < 2 ^ 63)%Z ->
  (- 2 ^ 63 <= b < 2 ^ 63)%Z ->
  (long_to_string a use_hex = long_to_string b use_hex -> a = b)
  /\ (use_hex <> 0%Z -> starts_with (long_to_string a use_hex) "0x")
  /\ long_to_string 0 0 = "0"
  /\ long_to_string (-1) 1 = "0xffffffffffffffff".
Proof.
  intros Ha Hb. split; [| split; [| split; reflexivity]].
  - unfold long_to_string. destruct (use_hex =? 0)%Z.
    + apply decimal_text_inj.
    + intros H. injection H as H. apply hex_text_inj in H.
      pose proof (Z.div_mod a (2 ^ 64) ltac:(lia)) as Hda.
      pose proof (Z.div_mod b (2 ^ 64) ltac:(lia)) as Hdb.
      pose proof (Z.mod_pos_bound a (2 ^ 64) ltac:(lia)) as Hma.
      pose proof (Z.mod_pos_bound b (2 ^ 64) ltac:(lia)) as Hmb.
      lia.
  - intros Hhex. unfold long_to_string.
    destruct (Z.eqb_spec use_hex 0); [contradiction |]. now eexists.
Qed.

Lemma long_to_string_injective_witness :
  long_to_string 140737488347136 1 = "0x7fffffffe000"
  /\ (long_to_string 140737488347136 1 = long_to_string 140737488347136 1 ->
      140737488347136 = 140737488347136)%Z
  /\ starts_with (long_to_string (-16) 1) "0x".
Proof.
  split; [reflexivity |].
  destruct (long_to_string_injective 140737488347136 140737488347136 1
              ltac:(lia) ltac:(lia)) as (Hinj & _).
  destruct (long_to_string_injective (-16) 0 1 ltac:(lia) ltac:(lia)) as (_ & Hpre & _).
  split; [exact Hinj | apply Hpre; discriminate].
Defined.

(** ** The application and its frame *)

Module AppFacts.
Import App.

Local Open Scope Z_scope.

Lemma append_args_concat (rest : list string) :
  forall argc i args,
    i + Z.of_nat (length rest) = argc ->
    append_args argc i rest args = (args ++ String.concat " " rest)%string.
Proof.
  induction rest as [| arg rest IH]; intros argc i args Hlen.
  - simpl. now rewrite append_nil_r.
  - cbn [append_args]. destruct rest as [| arg' rest].
    + simpl in Hlen. destruct (Z.ltb_spec i (argc - 1)); [lia |]. reflexivity.
    + destruct (Z.ltb_spec i (argc - 1)); [| simpl length in Hlen; lia].
      rewrite IH by (simpl length in *; lia).
      change (String.concat " " (arg :: arg' :: rest))
        with (arg ++ " " ++ String.concat " " (arg' :: rest))%string.
      now rewrite !append_assoc.
Qed.

(** X19: the command line [OnInit] builds for the About box is the
    arguments after the program name, in order, separated by single spaces,
    with no space before the first or after the last; it is empty when
    there is none. *)
Theorem build_args_joins_with_spaces (argv : list string) :
  build_args argv = String.concat " " (tl argv)
  /\ build_args [] = ""%string
  /\ forall program, build_args [program] = ""%string.
Proof.
  split; [| split; reflexivity].
  unfold build_args. destruct argv as [| program rest]; [reflexivity |].
  rewrite append_args_concat; [reflexivity | simpl length; lia].
Qed.

(** X20: on a screen of non-negative size the frame [OnInit] creates has
    half the width and height of the screen (rounded down), lies within
    the screen, and is centred: its right and bottom margins are its left
    and top margins, or one pixel more. *)
Theorem frame_is_centred (screen_x screen_y : Z) :
  0 <= screen_x -> 0 <= screen_y ->
  let '(x, y) := frame_position screen_x screen_y in
  let '(w, h) := frame_size screen_x screen_y in
  0 <= x /\ x + w <= screen_x /\ 0 <= (screen_x - (x + w)) - x <= 1
  /\ 0 <= y /\ y + h <= screen_y /\ 0 <= (screen_y - (y + h)) - y <= 1
  /\ 2 * w <= screen_x <= 2 * w + 1 /\ 2 * h <= screen_y <= 2 * h + 1.
Proof.
  intros Hx Hy. unfold frame_position, frame_size.
  rewrite !(Z.quot_div_nonneg screen_x 2), !(Z.quot_div_nonneg screen_y 2) by lia.
  assert (0 <= screen_x - screen_x / 2) by (Z.div_mod_to_equations; lia).
  assert (0 <= screen_y - screen_y / 2) by (Z.div_mod_to_equations; lia).
  rewrite !Z.quot_div_nonneg by lia.
  Z.div_mod_to_equations. lia.
Qed.

Lemma frame_is_centred_witness :
  frame_position 1920 1080 = (480, 270) /\ frame_size 1920 1080 = (960, 540)
  /\ 480 + 960 <= 1920 /\ 270 + 540 <= 1080.
Proof.
  pose proof (frame_is_centred 1920 1080 ltac:(lia) ltac:(lia)) as H.
  change (frame_position 1920 1080) with (480, 270) in H.
  change (frame_size 1920 1080) with (960, 540) in H.
  destruct H as (_ & Hx & _ & _ & Hy & _).
  split; [reflexivity |]. split; [reflexivity |]. split; [exact Hx | exact Hy].
Defined.

Lemma last_of_nonempty (l : list string) :
  forall x d1 d2, List.last (x :: l) d1 = List.last (x :: l) d2.
Proof.
  induction l as [| y l IH]; intros x d1 d2; [reflexivity |].
  change (List.last (x :: y :: l) d1) with (List.last (y :: l) d1).
  change (List.last (x :: y :: l) d2) with (List.last (y :: l) d2).
  apply IH.
Qed.

Lemma handle_events_last (events : list string) :
  forall frame,
    StatusText (handle_events events frame) = List.last events (StatusText frame).
Proof.
  induction events as [| e events IH]; intros frame; [reflexivity |].
  unfold handle_events in *. simpl fold_left. rewrite IH. simpl StatusText.
  destruct events as [| e' events]; [reflexivity |].
  change (List.last (e :: e' :: events) (StatusText frame))
    with (List.last (e' :: events) (StatusText frame)).
  apply last_of_nonempty.
Qed.

Lemma status_texts_last (events : list string) (text : string) :
  Forall (fun e => e = GDB_STATUS_IDLE \/ e = GDB_STATUS_RUNNING) events ->
  text = GDB_STATUS_IDLE \/ text = GDB_STATUS_RUNNING ->
  List.last events text = GDB_STATUS_IDLE \/ List.last events text = GDB_STATUS_RUNNING.
Proof.
  induction events as [| e events IH]; intros Hall Ht; [exact Ht |].
  apply List.Forall_cons_iff in Hall as [He Hall].
  destruct events as [| e' events]; [exact He |].
  change (List.last (e :: e' :: events) text) with (List.last (e' :: events) text).
  now apply IH.
Qed.

(** X21: the status bar only ever shows one of the two status texts.  The
    frame starts with the idle text, and after the GUI has handled any
    number of the events a run of the console has queued (on an empty
    queue), the text is the idle or the running text: that of the last
    event handled. *)
Theorem status_bar_shows_a_status
    (fuel : nat) (argv : list string) (child : pstream) (c : Console)
    (g' : GDB) (c' : Console) (handled : nat) :
  open_console fuel argv child c = Some (g', c') ->
  queued c = [] ->
  let frame := handle_events (firstn handled (queued c')) GDBFrame_new in
  StatusText frame = List.last (firstn handled (queued c')) GDB_STATUS_IDLE
  /\ (StatusText frame = GDB_STATUS_IDLE \/ StatusText frame = GDB_STATUS_RUNNING).
Proof.
  intros Hopen Hempty frame. subst frame. rewrite handle_events_last. simpl StatusText.
  split; [reflexivity |].
  unfold open_console in Hopen.
  destruct (update_console_and_gui fuel (GDB_new argv child) c) as [[g1 c1] |] eqn:Hup;
    [| discriminate].
  apply update_console_and_gui_effect in Hup as (_ & _ & _ & _ & _ & (m1 & Hq1 & Hall1) & _).
  apply console_loop_grows in Hopen as (_ & _ & _ & (m2 & Hq2 & Hall2)).
  rewrite Hq2, Hq1, Hempty. simpl.
  apply status_texts_last; [| now left].
  assert (Hall : List.Forall (fun e => e = GDB_STATUS_IDLE \/ e = GDB_STATUS_RUNNING)
                             (m1 ++ m2)) by (apply List.Forall_app; split; assumption).
  rewrite List.Forall_forall in *. intros e He. apply Hall.
  rewrite <- (firstn_skipn handled (m1 ++ m2)). apply in_or_app. now left.
Qed.

Lemma status_bar_shows_a_status_witness :
  let child := mk_pstream "" (repeat (false, false) 9) (true, true)
                 ["GNU gdb" ++ GDB_PROMPT; ""; "Starting" ++ GDB_PROMPT; "";
                  "Using the running image" ++ GDB_PROMPT; ""] [] in
  exists g' c',
    open_console 9 ["gg"] child (console ["run"] []) = Some (g', c')
    /\ (StatusText (handle_events (firstn 2 (queued c')) GDBFrame_new) = GDB_STATUS_IDLE
        \/ StatusText (handle_events (firstn 2 (queued c')) GDBFrame_new)
           = GDB_STATUS_RUNNING).
Proof.
  intros child.
  destruct (open_console 9 ["gg"] child (console ["run"] [])) as [[g' c'] |] eqn:Hopen;
    [| vm_compute in Hopen; discriminate].
  exists g', c'. split; [reflexivity |].
  exact (proj2 (status_bar_shows_a_status 9 ["gg"] child (console ["run"] []) g' c' 2
                  Hopen eq_refl)).
Defined.

End AppFacts.

(** ** The grid of the stack panel *)

Module StackGridFacts.
Import StackPanel StackGrid.

Local Open Scope Z_scope.

Section Drawing.
Variables (f : StackFrame) (image : list Z) (top : Z).

Lemma In_draw_loop (n : nat) :
  forall index call,
    In call (draw_loop f image top n index)
    <-> exists k, index <= k < index + Z.of_nat n /\ In call (draw_value f image top k).
Proof.
  induction n as [| n IH]; intros index call.
  - simpl. split; [tauto | intros (k & Hk & _); lia].
  - cbn [draw_loop]. rewrite in_app_iff, IH. split.
    + intros [H | (k & Hk & H)]; [exists index | exists k]; split; try assumption; lia.
    + intros (k & Hk & H). destruct (Z.eq_dec k index) as [-> | Hne]; [now left |].
      right. exists k. split; [lia | exact H].
Qed.

(** The two kinds of text cells one index writes: the address in column 0
    when the index starts a row, and the value in its own column. *)
Lemma In_draw_value_cell (k row col : Z) (text : string) :
  In (SetCellValue row col text) (draw_value f image top k)
  <-> row = Z.quot k 4
      /\ ((col = 0 /\ Z.rem k 4 = 0 /\ text = long_to_string (ladd top k) 1)
          \/ (col = Z.rem k 4 + 1 /\ text = long_to_string (array_get image k) 1)).
Proof.
  unfold draw_value. rewrite in_app_iff.
  assert (Hlast : In (SetCellValue row col text)
                     [SetCellValue (Z.quot k 4) (Z.rem k 4 + 1)
                                   (long_to_string (array_get image k) 1)]
                  <-> row = Z.quot k 4 /\ col = Z.rem k 4 + 1
                      /\ text = long_to_string (array_get image k) 1).
  { simpl. split.
    - intros [H | []]. injection H as <- <- <-. tauto.
    - intros (-> & -> & ->). now left. }
  rewrite Hlast. clear Hlast.
  destruct (Z.eqb_spec (Z.rem k 4) 0) as [Hrem | Hrem].
  - assert (Hfirst :
      In (SetCellValue row col text)
         (SetCellValue (Z.quot k 4) 0 (long_to_string (ladd top k) 1)
          :: (if ladd top k <? stack_pointer f
              then SetRowLabelValue (Z.quot k 4) "n/a" :: grey_row (Z.quot k 4)
              else [SetRowLabelValue (Z.quot k 4)
                      (long_to_string (lsub (ladd top k) (frame_pointer f)) 0)])
          ++ (if ladd top k =? stack_pointer f
              then [SetCellBackgroundColour (Z.quot k 4) 0 255 255 124]
              else if ladd top k =? frame_pointer f
              then [SetCellBackgroundColour (Z.quot k 4) 0 182 149 192]
              else []))
      <-> row = Z.quot k 4 /\ col = 0 /\ text = long_to_string (ladd top k) 1).
    { cbn [In]. rewrite in_app_iff. split.
      - intros [H | [H | H]].
        + injection H as <- <- <-. tauto.
        + exfalso. destruct (ladd top k <? stack_pointer f); simpl in H;
            repeat (destruct H as [H | H]; [discriminate |]); exact H.
        + exfalso. destruct (ladd top k =? stack_pointer f);
            [| destruct (ladd top k =? frame_pointer f)]; simpl in H;
            repeat (destruct H as [H | H]; [discriminate |]); exact H.
      - intros (-> & -> & ->). now left. }
    rewrite Hfirst. tauto.
  - simpl. split.
    + intros [[] | H]. tauto.
    + intros [Hrow [(_ & H0 & _) | H]]; [contradiction | tauto].
Qed.

Lemma draw_value_paints (k : Z) : Forall paints (draw_value f image top k).
Proof.
  unfold draw_value, grey_row. apply List.Forall_app. split.
  - destruct (Z.rem k 4 =? 0); [| apply List.Forall_nil].
    apply List.Forall_cons; [exact I |]. apply List.Forall_app. split.
    + destruct (ladd top k <? stack_pointer f); simpl; repeat constructor.
    + destruct (ladd top k =? stack_pointer f);
        [| destruct (ladd top k =? frame_pointer f)]; repeat constructor.
  - repeat constructor.
Qed.

Lemma draw_loop_paints (n : nat) :
  forall index, Forall paints (draw_loop f image top n index).
Proof.
  induction n as [| n IH]; intros index; simpl; [apply List.Forall_nil |].
  apply List.Forall_app. split; [apply draw_value_paints | apply IH].
Qed.

End Drawing.

Lemma paints_keep_rows (calls : list GridCall) :
  forall grid,
    Forall paints calls ->
    NumberRows (fold_left (fun g call => grid_call call g) calls grid) = NumberRows grid
    /\ grid_calls (fold_left (fun g call => grid_call call g) calls grid)
       = (grid_calls grid ++ calls)%list.
Proof.
  induction calls as [| call calls IH]; intros grid Hall; simpl.
  - now rewrite app_nil_r.
  - apply List.Forall_cons_iff in Hall as [Hcall Hall].
    destruct (IH (grid_call call grid) Hall) as [IH1 IH2]. rewrite IH1, IH2.
    split; [destruct call; simpl in *; tauto |].
    simpl. now rewrite <- app_assoc.
Qed.

Lemma quot_rem_nonneg (k : Z) :
  0 <= k -> k = 4 * Z.quot k 4 + Z.rem k 4 /\ 0 <= Z.rem k 4 < 4 /\ 0 <= Z.quot k 4.
Proof.
  intros Hk. split; [apply Z.quot_rem'; lia |].
  split; [apply Z.rem_bound_pos; lia | apply Z.quot_pos; lia].
Qed.

(** The text cells of a drawing: column 0 of a row shows the address of
    the row's first byte, columns 1 to 4 its four bytes. *)
Lemma In_draw_cell (f : StackFrame) (p : GDBStackPanel) (row col : Z) (text : string) :
  0 <= stack_size p ->
  In (SetCellValue row col text) (draw f p)
  <-> exists k, 0 <= k < stack_size p /\ row = Z.quot k 4
      /\ ((col = 0 /\ Z.rem k 4 = 0
           /\ text = long_to_string (ladd (stack_top p) k) 1)
          \/ (col = Z.rem k 4 + 1
              /\ text = long_to_string (array_get (default [] (stack_global p)) k) 1)).
Proof.
  intros Hsize. unfold draw. cbn [In]. rewrite In_draw_loop. split.
  - intros [H | (k & Hk & H)]; [discriminate |].
    apply In_draw_value_cell in H. exists k. split; [lia | exact H].
  - intros (k & Hk & H). right. exists k. split; [lia |].
    now apply In_draw_value_cell.
Qed.

(** X17: the rows of the grid and the rows drawn.  After [SetStackFrame]
    with a frame that has memory the grid has [stack_size / 4] rows (the
    old rows were deleted first); text is written to the rows [0] to
    [(stack_size - 1) / 4], columns 0 to 4.  So when [stack_size] is a
    multiple of 4 every text cell lies in a row of the grid, and when it is
    not, the last, incomplete group of bytes is written to the row just
    past the last one appended. *)
Theorem grid_rows_and_rows_drawn
    (f : StackFrame) (mem : list Z) (p : GDBStackPanel) (grid : wxGrid) :
  memory f = Some mem ->
  0 <= NumberRows grid ->
  let p' := fst (StackGrid.SetStackFrame (Some f) p grid) in
  let grid' := snd (StackGrid.SetStackFrame (Some f) p grid) in
  0 <= stack_size p' ->
  p' = StackPanel.SetStackFrame (Some f) p
  /\ NumberRows grid' = Z.quot (stack_size p') 4
  /\ (exists deleted, grid_calls grid' = (grid_calls grid ++ deleted ++ draw f p')%list)
  /\ (forall row col text,
        In (SetCellValue row col text) (draw f p') ->
        0 <= row /\ 4 * row < stack_size p' /\ 0 <= col <= 4)
  /\ (Z.rem (stack_size p') 4 = 0 ->
      forall row col text,
        In (SetCellValue row col text) (draw f p') -> row < NumberRows grid')
  /\ (Z.rem (stack_size p') 4 <> 0 ->
      exists col text, In (SetCellValue (NumberRows grid') col text) (draw f p')).
Proof.
  intros Hmemory Hrows p' grid'. subst p' grid'.
  unfold StackGrid.SetStackFrame. rewrite Hmemory. cbn [fst snd].
  set (p' := StackPanel.SetStackFrame (Some f) p).
  set (grid1 := if NumberRows grid =? 0 then grid
                else grid_call (DeleteRows 0 (NumberRows grid)) grid).
  set (grid' := fold_left (fun g call => grid_call call g) (draw f p') grid1).
  intros Hsize. split; [reflexivity |].
  assert (Hg1 : NumberRows grid1 = 0
                /\ exists deleted, grid_calls grid1 = (grid_calls grid ++ deleted)%list).
  { unfold grid1. destruct (Z.eqb_spec (NumberRows grid) 0) as [H0 | H0].
    - split; [exact H0 | exists []; now rewrite app_nil_r].
    - simpl. split; [lia | eauto]. }
  destruct Hg1 as [Hg1 (deleted & Hcalls1)].
  assert (Hdraw : NumberRows grid' = Z.quot (stack_size p') 4
                  /\ grid_calls grid' = (grid_calls grid1 ++ draw f p')%list).
  { unfold grid', draw. cbn [fold_left].
    destruct (paints_keep_rows
                (draw_loop f (default [] (stack_global p')) (stack_top p')
                           (Z.to_nat (stack_size p')) 0)
                (grid_call (AppendRows (Z.quot (stack_size p') 4)) grid1)
                (draw_loop_paints _ _ _ _ _)) as [H1 H2].
    rewrite H1, H2. simpl. rewrite Hg1. split; [lia |].
    now rewrite <- app_assoc. }
  destruct Hdraw as [Hrows' Hcalls'].
  split; [exact Hrows' |]. split.
  { exists deleted. now rewrite Hcalls', Hcalls1, <- app_assoc. }
  assert (Hcells : forall row col text,
             In (SetCellValue row col text) (draw f p') ->
             exists k, 0 <= k < stack_size p' /\ row = Z.quot k 4
                       /\ (col = 0 \/ col = Z.rem k 4 + 1)).
  { intros row col text H. apply In_draw_cell in H as (k & Hk & Hrow & H); [| exact Hsize].
    exists k. split; [exact Hk |]. split; [exact Hrow |].
    destruct H as [(H & _) | (H & _)]; [now left | now right]. }
  split; [| split].
  - intros row col text H. destruct (Hcells _ _ _ H) as (k & Hk & -> & Hcol).
    destruct (quot_rem_nonneg k ltac:(lia)) as (Hk1 & Hk2 & Hk3). lia.
  - intros Hrem row col text H. destruct (Hcells _ _ _ H) as (k & Hk & -> & _).
    rewrite Hrows'.
    destruct (quot_rem_nonneg k ltac:(lia)) as (Hk1 & Hk2 & Hk3).
    destruct (quot_rem_nonneg (stack_size p') Hsize) as (Hs1 & Hs2 & Hs3). lia.
  - intros Hrem. rewrite Hrows'.
    destruct (quot_rem_nonneg (stack_size p') Hsize) as (Hs1 & Hs2 & Hs3).
    set (k := 4 * Z.quot (stack_size p') 4).
    assert (Hkq : Z.quot k 4 = Z.quot (stack_size p') 4)
      by (unfold k; rewrite Z.mul_comm; apply Z.quot_mul; lia).
    assert (Hkr : Z.rem k 4 = 0)
      by (unfold k; rewrite Z.mul_comm; apply Z.rem_mul; lia).
    exists 0, (long_to_string (ladd (stack_top p') k) 1).
    apply In_draw_cell; [exact Hsize |].
    exists k. split; [unfold k; lia |]. split; [now rewrite Hkq |].
    left. tauto.
Qed.

Lemma grid_rows_and_rows_drawn_witness :
  let grid := mk_wxGrid 3 [] in
  let p' := fst (StackGrid.SetStackFrame (Some frame_A) empty_panel grid) in
  let grid' := snd (StackGrid.SetStackFrame (Some frame_A) empty_panel grid) in
  stack_size p' = 10
  /\ NumberRows grid' = 2
  /\ exists col text, In (SetCellValue 2 col text) (draw frame_A p').
Proof.
  intros grid p' grid'.
  destruct (grid_rows_and_rows_drawn frame_A _ empty_panel grid eq_refl
              ltac:(simpl; lia) ltac:(simpl; lia))
    as (_ & Hrows & _ & _ & _ & Hpast).
  fold p' grid' in Hrows, Hpast.
  split; [reflexivity |]. split; [exact Hrows |].
  change 2 with (NumberRows grid'). apply Hpast. discriminate.
Defined.

(** X18: what the grid shows.  For a panel whose image is an array of
    [stack_size] values, [stack_size] being at most [INT_MAX]: a text cell
    is written in column 1 to 4 of a row exactly for a value of the image,
    the cell in row [row], column [col] showing, in hexadecimal, the
    element of the image at index [4 * row + col - 1]; and column 0 of a
    row shows the address of the row's first byte. *)
Theorem grid_shows_the_image
    (f : StackFrame) (p : GDBStackPanel) (image : list Z)
    (row col : Z) (text : string) :
  stack_global p = Some image ->
  Z.of_nat (length image) = stack_size p ->
  stack_size p <= INT_MAX ->
  (1 <= col ->
   (In (SetCellValue row col text) (draw f p)
    <-> 0 <= row /\ col <= 4 /\ 4 * row + col - 1 < stack_size p
        /\ exists value, image !! Z.to_nat (4 * row + col - 1) = Some value
                         /\ text = long_to_string value 1))
  /\ (In (SetCellValue row 0 text) (draw f p)
      <-> 0 <= row /\ 4 * row < stack_size p
          /\ text = long_to_string (ladd (stack_top p) (4 * row)) 1).
Proof.
  intros Himage Hlength _.
  assert (Hsize : 0 <= stack_size p) by lia.
  assert (Hget : forall k, 0 <= k < stack_size p ->
            exists value, image !! Z.to_nat k = Some value
                          /\ array_get image k = value).
  { intros k Hk. unfold array_get.
    destruct (Z.ltb_spec k 0) as [Hneg | _]; [lia |].
    destruct (image !! Z.to_nat k) as [value |] eqn:Hlookup.
    - exists value. split; reflexivity.
    - apply lookup_ge_None in Hlookup. lia. }
  split.
  - intros Hcol. rewrite (In_draw_cell f p row col text Hsize), Himage.
    cbn [from_option id]. split.
    + intros (k & Hk & -> & [(H0 & _) | (-> & ->)]); [lia |].
      destruct (quot_rem_nonneg k ltac:(lia)) as (Hk1 & Hk2 & Hk3).
      replace (4 * Z.quot k 4 + (Z.rem k 4 + 1) - 1) with k by lia.
      destruct (Hget k Hk) as (value & Hlookup & Hvalue).
      split; [lia |]. split; [lia |]. split; [lia |].
      exists value. split; [exact Hlookup | now rewrite Hvalue].
    + intros (Hrow & Hcol4 & Hlt & value & Hlookup & ->).
      set (k := 4 * row + col - 1) in *.
      assert (Hq : Z.quot k 4 = row).
      { unfold k. rewrite Z.quot_div_nonneg by lia.
        symmetry. apply (Z.div_unique _ 4 row (col - 1)); lia. }
      assert (Hr : Z.rem k 4 = col - 1).
      { unfold k. rewrite Z.rem_mod_nonneg by lia.
        symmetry. apply (Z.mod_unique _ 4 row (col - 1)); lia. }
      exists k. split; [unfold k; lia |]. split; [now rewrite Hq |].
      right. rewrite Hr. split; [lia |].
      destruct (Hget k ltac:(unfold k; lia)) as (value' & Hlookup' & ->).
      congruence.
  - rewrite (In_draw_cell f p row 0 text Hsize). split.
    + intros (k & Hk & -> & [(_ & Hrem & ->) | (H0 & _)]).
      * destruct (quot_rem_nonneg k ltac:(lia)) as (Hk1 & Hk2 & Hk3).
        replace (4 * Z.quot k 4) with k by lia. repeat split; lia.
      * destruct (quot_rem_nonneg k ltac:(lia)) as (Hk1 & Hk2 & Hk3). lia.
    + intros (Hrow & Hlt & ->).
      assert (Hq : Z.quot (4 * row) 4 = row) by (rewrite Z.mul_comm; apply Z.quot_mul; lia).
      assert (Hr : Z.rem (4 * row) 4 = 0) by (rewrite Z.mul_comm; apply Z.rem_mul; lia).
      exists (4 * row). split; [lia |]. split; [now rewrite Hq |]. left. tauto.
Qed.

Lemma grid_shows_the_image_witness :
  let p := StackPanel.SetStackFrame (Some frame_B)
             (StackPanel.SetStackFrame (Some frame_A) empty_panel) in
  let image := [1; 2; 3; 4; 5; 100; 101; 102; 103; 104; 105; 106; 107; 108; 109] in
  stack_global p = Some image
  /\ Z.of_nat (length image) = stack_size p
  /\ stack_size p <= INT_MAX
  /\ In (SetCellValue 1 2 "0x64") (draw frame_B p)
  /\ In (SetCellValue 1 0 "0xe") (draw frame_B p).
Proof.
  intros p image.
  assert (Himage : stack_global p = Some image) by (vm_compute; reflexivity).
  assert (Hlength : Z.of_nat (length image) = stack_size p) by (vm_compute; reflexivity).
  assert (Hmax : stack_size p <= INT_MAX) by (vm_compute; discriminate).
  destruct (grid_shows_the_image frame_B p image 1 2 "0x64" Himage Hlength Hmax)
    as [Hcell _].
  destruct (grid_shows_the_image frame_B p image 1 0 "0xe" Himage Hlength Hmax)
    as [_ Haddr].
  split; [exact Himage |]. split; [exact Hlength |]. split; [exact Hmax |].
  split.
  - apply (Hcell ltac:(lia)).
    split; [lia |]. split; [lia |].
    split; [vm_compute; reflexivity |].
    exists 100. split; vm_compute; reflexivity.
  - apply Haddr.
    repeat split; vm_compute; first [reflexivity | discriminate].
Defined.

End StackGridFacts.

(** ** When a drain returns, and with what *)

Lemma fold_left_append_chunks (chunks : list string) :
  forall out, fold_left String.append chunks out = out ++ concat_chunks chunks.
Proof.
  induction chunks as [| c chunks IH]; intros out; simpl.
  - now rewrite append_nil_r.
  - now rewrite IH, append_assoc.
Qed.

Lemma alive_for_poll (m : nat) (p : pstream) :
  alive_for (S m) p ->
  fst (exited_poll p) = (false, false) /\ alive_for m (polled p).
Proof.
  intros H. unfold alive_for, polled, exited_poll in *.
  destruct (exit_reports p) as [| r rs] eqn:Hrep; simpl.
  - split; [exact (H 0%nat ltac:(lia)) |].
    intros i Hi. rewrite Hrep. specialize (H 0%nat ltac:(lia)). simpl in H.
    now destruct i.
  - split; [exact (H 0%nat ltac:(lia)) |].
    intros i Hi. exact (H (S i) ltac:(lia)).
Qed.

Lemma ends_with_prompt_nonempty (chunk : string) :
  ends_with_prompt chunk = true -> chunk <> "".
Proof. intros H ->. discriminate. Qed.

(** The pending reads split at the first read that finds nothing. *)
Lemma plain_split (plain : list string) :
  Forall (fun c => ends_with_prompt c = false) plain ->
  (idle_reads plain = 0%nat
   /\ Forall (fun c => c <> "" /\ ends_with_prompt c = false) plain)
  \/ exists pre post,
      plain = (pre ++ "" :: post)%list
      /\ Forall (fun c => c <> "" /\ ends_with_prompt c = false) pre
      /\ Forall (fun c => ends_with_prompt c = false) post
      /\ idle_reads plain = S (idle_reads post).
Proof.
  induction plain as [| c plain IH]; intros Hall.
  - left. split; [reflexivity | apply List.Forall_nil].
  - apply List.Forall_cons_iff in Hall as [Hc Hall].
    destruct c as [| a c].
    + right. exists [], plain. simpl. repeat split; try assumption.
      apply List.Forall_nil.
    + destruct (IH Hall) as [[H0 Hne] | (pre & post & -> & Hpre & Hpost & Hn)].
      * left. split; [exact H0 |]. apply List.Forall_cons; [| exact Hne].
        split; [discriminate | exact Hc].
      * right. exists (String a c :: pre), post. split; [reflexivity |].
        split; [| split; [exact Hpost | exact Hn]].
        apply List.Forall_cons; [| exact Hpre]. split; [discriminate | exact Hc].
Qed.

Lemma read_until_prompt_answer (m : nat) :
  forall g plain (body : string) rest out err trim fuel,
    idle_reads plain = m ->
    Forall (fun c => ends_with_prompt c = false) plain ->
    out_pending (process g) = (plain ++ (body ++ GDB_PROMPT)%string :: rest)%list ->
    (rest = [] \/ exists r, rest = "" :: r) ->
    alive_for (S m) (process g) ->
    exists d,
      read_until_prompt (m + 2 + fuel) g out err trim = Some d
      /\ d_hit_prompt d = true
      /\ d_output d
         = out ++ concat_chunks plain ++ (if trim then body else body ++ GDB_PROMPT).
Proof.
  induction m as [| m IH];
    intros g plain body rest out err trim fuel Hm Hplain Hpending Hrest Halive.
  - destruct (plain_split plain Hplain) as [[_ Hne] | (pre & post & _ & _ & _ & Hn)];
      [| congruence].
    destruct (alive_for_poll 0 _ Halive) as [Hpoll _].
    destruct (read_until_prompt_prompt_at_chunk_end fuel g plain body rest out err trim)
      as (d & Hd & Hhit & Hout); try assumption.
    { rewrite is_alive_value, Hpoll. reflexivity. }
    exists d. split; [exact Hd |]. split; [exact Hhit |].
    rewrite Hout, fold_left_append_chunks. apply append_assoc.
  - destruct (plain_split plain Hplain) as [[H0 _] | (pre & post & -> & Hpre & Hpost & Hn)];
      [congruence |].
    assert (Hpostm : idle_reads post = m) by congruence.
    destruct (alive_for_poll (S m) _ Halive) as [Hpoll Halive'].
    unfold read_until_prompt. change (S m + 2 + fuel)%nat with (S (m + 2 + fuel)).
    cbn [read_until_prompt_loop].
    rewrite (is_alive_pair g), is_alive_value, Hpoll. cbn [fst snd orb negb andb].
    cbn [process set_process].
    destruct (drain_err (err_pending (polled (process g))) err) as [err_rest err'].
    cbn [out_pending set_err_pending]. rewrite polled_out_pending, Hpending.
    rewrite <- app_assoc.
    rewrite (drain_out_plain trim pre _ out false Hpre). cbn [drain_out app].
    cbn [String.length Nat.eqb].
    set (g' := set_process _ _).
    destruct (IH g' post body rest (fold_left String.append pre out) err' trim fuel)
      as (d & Hd & Hhit & Hout); try assumption.
    { reflexivity. }
    exists d. split; [exact Hd |]. split; [exact Hhit |].
    rewrite Hout, fold_left_append_chunks, concat_chunks_app. simpl.
    now rewrite !append_assoc.
Qed.

(** X22: the frame of a drain in the normal case.  If the child's answer
    arrives as chunks none of which ends with the prompt (reads that find
    nothing in between are fine), followed by a last chunk that ends with
    the prompt, after which nothing is available, and the child is alive at
    the polls made meanwhile, then the drain returns with the prompt flag
    set, and what it appended to the output is exactly what the child wrote
    before the prompt, with the prompt after it unless it is trimmed. *)
Theorem read_until_prompt_returns_the_answer
    (g : GDB) (plain : list string) (body : string) (rest : list string)
    (out err : string) (trim : bool) (fuel : nat) :
  Forall (fun c => ends_with_prompt c = false) plain ->
  out_pending (process g) = (plain ++ (body ++ GDB_PROMPT)%string :: rest)%list ->
  (rest = [] \/ exists r, rest = "" :: r) ->
  alive_for (S (idle_reads plain)) (process g) ->
  exists d,
    read_until_prompt (idle_reads plain + 2 + fuel) g out err trim = Some d
    /\ d_hit_prompt d = true
    /\ d_output d
       = out ++ concat_chunks plain ++ (if trim then body else body ++ GDB_PROMPT).
Proof. intros. now apply (read_until_prompt_answer (idle_reads plain)) with (rest := rest). Qed.

Lemma read_until_prompt_returns_the_answer_witness :
  let g := session [] (false, false)
             ["Breakpoint 1, "; "main () "; ""; "at a.c:3" ++ GDB_PROMPT] [] in
  exists d,
    read_until_prompt 3 g "" "" true = Some d
    /\ d_output d = "Breakpoint 1, main () at a.c:3".
Proof.
  intros g.
  destruct (read_until_prompt_returns_the_answer g
              ["Breakpoint 1, "; "main () "; ""] "at a.c:3" [] "" "" true 0)
    as (d & Hd & _ & Hout).
  - repeat apply List.Forall_cons; try apply List.Forall_nil; reflexivity.
  - reflexivity.
  - now left.
  - intros i Hi. simpl. now destruct i.
  - exists d. split; [exact Hd | exact Hout].
Defined.

Lemma drain_out_split trim (pending : list string) :
  forall out hit,
    (fst (fst (drain_out trim pending out hit)) = [] /\ pending = burst pending)
    \/ pending = (burst pending ++ "" :: fst (fst (drain_out trim pending out hit)))%list.
Proof.
  induction pending as [| chunk rest IH]; intros out hit; simpl; [now left |].
  destruct (String.length chunk =? 0)%nat eqn:Hlen; simpl.
  - right. now rewrite (length_zero_empty _ Hlen).
  - destruct (string_ends_with chunk GDB_PROMPT).
    + destruct (IH (out ++ (if trim
                           then Str.erase chunk (String.length chunk - strlen GDB_PROMPT)
                                          (String.length chunk)
                           else chunk)) true) as [[H1 H2] | H];
        [left; split; [exact H1 | now f_equal] | right; now f_equal].
    + destruct (IH (out ++ chunk) hit) as [[H1 H2] | H];
        [left; split; [exact H1 | now f_equal] | right; now f_equal].
Qed.

(** A child that stays alive and does end a chunk with the prompt lets the
    drain return, within as many rounds as there are pending reads. *)
Lemma read_until_prompt_loop_finds_prompt (n : nat) :
  forall g out err trim,
    exit_reports (process g) = [] ->
    exit_settled (process g) = (false, false) ->
    (length (out_pending (process g)) <= n)%nat ->
    (exists chunk, In chunk (out_pending (process g)) /\ ends_with_prompt chunk = true) ->
    exists d,
      read_until_prompt_loop (n + 2) false g out err trim = Some d
      /\ d_hit_prompt d = true.
Proof.
  induction n as [| n IH]; intros g out err trim Hrep Hset Hlen (chunk & Hin & Hend).
  - destruct (out_pending (process g)); [destruct Hin | simpl in Hlen; lia].
  - change (S n + 2)%nat with (S (n + 2)). cbn [read_until_prompt_loop].
    rewrite (is_alive_settled g Hrep), Hset. cbn [fst snd orb negb andb].
    destruct (drain_err (err_pending (process g)) err) as [err_rest err'].
    cbn [out_pending set_err_pending].
    pose proof (drain_out_hit trim (out_pending (process g)) out false) as Hhit.
    pose proof (drain_out_split trim (out_pending (process g)) out false) as Hsplit.
    destruct (drain_out trim (out_pending (process g)) out false)
      as [[out_rest out'] hit'].
    simpl in Hhit, Hsplit.
    set (g' := set_process _ g).
    destruct hit'.
    + replace (n + 2)%nat with (S (n + 1)) by lia. cbn [read_until_prompt_loop].
      rewrite (is_alive_pair g'), andb_false_r. eexists. split; reflexivity.
    + assert (Hnot : ~ In chunk (burst (out_pending (process g)))).
      { intros Hb. symmetry in Hhit.
        assert (existsb ends_with_prompt (burst (out_pending (process g))) = true)
          by (apply existsb_exists; eauto).
        congruence. }
      destruct Hsplit as [[_ Hall] | Hsplit]; [rewrite Hall in Hin; contradiction |].
      apply IH; try assumption.
      * simpl. rewrite Hsplit in Hlen. rewrite length_app in Hlen. simpl in Hlen. lia.
      * exists chunk. split; [| exact Hend]. simpl.
        rewrite Hsplit in Hin. apply in_app_or in Hin as [Hb | [He | Hr]];
          [contradiction | | exact Hr].
        subst chunk. discriminate.
Qed.

(** With a child that stays alive the loop can only return on the prompt. *)
Lemma read_until_prompt_loop_alive_hit (fuel : nat) :
  forall hit g out err trim d,
    exit_reports (process g) = [] ->
    exit_settled (process g) = (false, false) ->
    read_until_prompt_loop fuel hit g out err trim = Some d ->
    d_hit_prompt d = true.
Proof.
  induction fuel as [| fuel IH]; intros hit g out err trim d Hrep Hset H;
    [discriminate |].
  cbn [read_until_prompt_loop] in H.
  rewrite (is_alive_settled g Hrep), Hset in H. cbn [fst snd orb negb andb] in H.
  destruct hit; cbn [negb] in H.
  - injection H as <-. reflexivity.
  - destruct (drain_err (err_pending (process g)) err) as [err_rest err'].
    destruct (drain_out trim _ out false) as [[out_rest out'] hit'].
    apply IH in H; [exact H | exact Hrep | exact Hset].
Qed.

(** X23: for a child that never exits, the drain returns (given enough
    fuel) exactly when some chunk of its output ends with the prompt, and
    then the prompt flag is set; otherwise it spins for ever. *)
Theorem read_until_prompt_returns_iff_prompt
    (g : GDB) (out err : string) (trim : bool) :
  exit_reports (process g) = [] ->
  exit_settled (process g) = (false, false) ->
  ((exists fuel d, read_until_prompt fuel g out err trim = Some d)
   <-> exists chunk, In chunk (out_pending (process g))
                      /\ ends_with_prompt chunk = true)
  /\ (forall fuel d, read_until_prompt fuel g out err trim = Some d ->
        d_hit_prompt d = true).
Proof.
  intros Hrep Hset.
  assert (Hdec : (exists chunk, In chunk (out_pending (process g))
                                /\ ends_with_prompt chunk = true)
                 \/ Forall (fun c => ends_with_prompt c = false) (out_pending (process g))).
  { destruct (existsb ends_with_prompt (out_pending (process g))) eqn:Hex.
    - left. apply existsb_exists in Hex. exact Hex.
    - right. apply List.Forall_forall. intros c Hc.
      destruct (ends_with_prompt c) eqn:Hc'; [| reflexivity].
      assert (existsb ends_with_prompt (out_pending (process g)) = true)
        by (apply existsb_exists; eauto).
      congruence. }
  split; [split |].
  - intros (fuel & d & Hd). destruct Hdec as [Hex | Hnone]; [exact Hex |].
    unfold read_until_prompt in Hd.
    rewrite (read_until_prompt_loop_spins fuel g out err trim Hrep Hset Hnone) in Hd.
    discriminate.
  - intros Hex.
    destruct (read_until_prompt_loop_finds_prompt
                (length (out_pending (process g))) g out err trim Hrep Hset
                (le_n _) Hex) as (d & Hd & _).
    eexists. exists d. exact Hd.
  - intros fuel d Hd. unfold read_until_prompt in Hd.
    now apply (read_until_prompt_loop_alive_hit fuel false g out err trim d).
Qed.

Lemma read_until_prompt_returns_iff_prompt_witness :
  let quiet := session [] (false, false) ["Continuing."; ""] [] in
  let answering := session [] (false, false) ["Continuing."; ""; "done" ++ GDB_PROMPT] [] in
  (forall fuel, read_until_prompt fuel quiet "" "" true = None)
  /\ exists fuel d, read_until_prompt fuel answering "" "" true = Some d.
Proof.
  intros quiet answering.
  destruct (read_until_prompt_returns_iff_prompt quiet "" "" true eq_refl eq_refl)
    as [[Hquiet _] _].
  destruct (read_until_prompt_returns_iff_prompt answering "" "" true eq_refl eq_refl)
    as [[_ Hanswer] _].
  split.
  - intros fuel. destruct (read_until_prompt fuel quiet "" "" true) as [d |] eqn:Hd;
      [| reflexivity].
    destruct (Hquiet (ex_intro _ fuel (ex_intro _ d Hd))) as (chunk & Hin & Hend).
    simpl in Hin. destruct Hin as [<- | [<- | []]]; discriminate.
  - apply Hanswer. exists ("done" ++ GDB_PROMPT). split; [| reflexivity].
    simpl. tauto.
Defined.

(** ** A series of commands *)

Lemma execute_all_alive (lines : list string) :
  forall g,
    alive_for (length lines) (process g) ->
    sent (process (execute_all lines g))
    = sent (process g) ++ concat_chunks (map (fun line => line ++ Str.endl) lines)
    /\ (lines <> [] -> running_program_flag (execute_all lines g) = true).
Proof.
  induction lines as [| line lines IH]; intros g Halive.
  - simpl. rewrite append_nil_r. split; [reflexivity | congruence].
  - destruct (alive_for_poll _ _ Halive) as [Hpoll Halive'].
    assert (Hex : execute (Some line) g
                  = set_running_program_flag true
                      (set_process (insert_line line (polled (process g))) g)).
    { unfold execute. rewrite (is_alive_pair g), is_alive_value, Hpoll. reflexivity. }
    unfold execute_all in *. cbn [fold_left]. rewrite Hex.
    destruct (IH (set_running_program_flag true
                    (set_process (insert_line line (polled (process g))) g)))
      as [IHs IHf].
    { intros i Hi. exact (Halive' i Hi). }
    split.
    + rewrite IHs. simpl. rewrite polled_sent. now rewrite !append_assoc.
    + intros _. destruct lines as [| l lines]; [reflexivity |].
      apply IHf. discriminate.
Qed.

Lemma execute_all_gone (lines : list string) :
  forall g,
    gone (process g) = true ->
    sent (process (execute_all lines g)) = sent (process g)
    /\ running_program_flag (execute_all lines g) = running_program_flag g
    /\ running_program (execute_all lines g) = running_program g.
Proof.
  induction lines as [| line lines IH]; intros g Hgone; [repeat split |].
  destruct (gone_not_alive g Hgone) as [Hdead Hgone'].
  assert (Hex : execute (Some line) g = snd (is_alive g)).
  { unfold execute. destruct (is_alive g) as [alive g1]. simpl in *. now subst alive. }
  unfold execute_all in *. cbn [fold_left]. rewrite Hex.
  destruct (IH (snd (is_alive g)) Hgone') as (H1 & H2 & H3).
  rewrite H1, H2, H3, is_alive_state. simpl. rewrite polled_sent. repeat split.
Qed.

(** X24: commands executed one after the other while the child is alive
    reach its input in their order, each followed by a newline, with
    nothing in between, and leave the status dirty; executed after the
    child is gone they are all dropped, and nothing of the session
    changes but the polls made. *)
Theorem execute_series (lines : list string) (g : GDB) :
  (alive_for (length lines) (process g) ->
   sent (process (execute_all lines g))
   = sent (process g) ++ concat_chunks (map (fun line => line ++ Str.endl) lines)
   /\ (lines <> [] -> running_program_flag (execute_all lines g) = true))
  /\ (gone (process g) = true ->
      sent (process (execute_all lines g)) = sent (process g)
      /\ running_program_flag (execute_all lines g) = running_program_flag g
      /\ running_program (execute_all lines g) = running_program g).
Proof. split; [apply execute_all_alive | apply execute_all_gone]. Qed.

Lemma execute_series_witness :
  let live := session [(false, false); (false, false)] (true, true) [] [] in
  let dead := session [] (true, false) [] [] in
  sent (process (execute_all ["break main"; "run"] live))
  = "break main" ++ Str.endl ++ "run" ++ Str.endl
  /\ sent (process (execute_all ["break main"; "run"] dead)) = "".
Proof.
  intros live dead.
  destruct (execute_series ["break main"; "run"] live) as [Hlive _].
  destruct (execute_series ["break main"; "run"] dead) as [_ Hdead].
  split.
  - destruct Hlive as [Hs _]; [intros i Hi; simpl in Hi; do 2 (destruct i; [reflexivity |]); lia |].
    rewrite Hs. reflexivity.
  - destruct (Hdead eq_refl) as [Hs _]. rewrite Hs. reflexivity.
Defined.
